(** * E-Shop API: a shallow embedding of the request handlers, the
      authentication gate, the error translator and the documentation
      generators of node-express-mongodb-practice.

    Conventions of the embedding

    - A JavaScript [Number] that the handlers do arithmetic on (a price, a
      quantity, a total) is an IEEE 754 double: the primitive [float], with
      its multiplication and addition.  Mongoose's cast to a Number path
      refuses NaN.  Numbers that are only counted, stored or compared
      (counts, stock, ratings, dates, HTTP status codes) are integers of
      [Z].
    - An identifier that comes with a request (a route parameter, the
      category of a product body, the product of an order item, the user of
      an order) is a [RawId]: it casts to an [ObjectId], or it does not, and
      then the query it is handed to rejects with a CastError before
      anything is sent to the database, and the document it is a field of
      does not pass its schema.  Collections are
      finite maps from [ObjectId] to documents; a query that finds nothing
      yields [None] (JavaScript [null]).  A fault of the driver or of the
      connection is not part of this model.
    - [save()] validates a document against its schema before it inserts
      it; [findByIdAndUpdate] with the options the handlers pass applies the
      update without running the schema's validators.
    - A handler is a computation in the monad [M]: it threads the database,
      the Express response object and the log of write commands it has
      issued, and it either completes or throws a JavaScript error.
    - Object literals sent as response bodies are values of [Json], written
      field by field as in the source. *)

From stdpp Require Import base strings pretty gmap list.
From Stdlib Require Import ZArith QArith Lia Ascii Floats.

Close Scope Q_scope.

Set Warnings "-register-all".

(** ** Values *)

Abbreviation ObjectId := N.

(** What a request supplies where an identifier is expected: a value that
    Mongoose casts to an ObjectId, or one that it cannot cast. *)
Inductive RawId :=
  | Casts (id : ObjectId)
  | NoCast (raw : string).

Coercion Casts : N >-> RawId.

(** The ObjectId a raw identifier casts to, when it casts. *)
Definition cast_oid (raw : RawId) : option ObjectId :=
  match raw with
  | Casts id => Some id
  | NoCast _ => None
  end.

(** The double quote. *)
Definition dquote : string :=
  String (Ascii.Ascii false true false false false true false false) "".
Definition quoted (s : string) : string := dquote +:+ s +:+ dquote.

Inductive ErrCode :=
  | CodeNum (n : Z)
  | CodeStr (s : string).

#[global] Instance ErrCode_eq_dec : EqDecision ErrCode.
Proof. solve_decision. Defined.

(** A JavaScript error object: [err.name], [err.message], [err.code]. *)
Module JsError.
Record t := mk { name : string; message : string; code : option ErrCode }.

#[global] Instance eq_dec : EqDecision t.
Proof. solve_decision. Defined.

Definition TypeError (msg : string) : t := mk "TypeError" msg None.
Definition ValidationError (msg : string) : t := mk "ValidationError" msg None.
(** Thrown by Mongoose when [raw] is handed to a query of [model] as an
    [_id] and cannot be cast to an ObjectId. *)
Definition CastError (raw model : string) : t :=
  mk "CastError"
     ("Cast to ObjectId failed for value " +:+ quoted raw
      +:+ " (type string) at path " +:+ quoted "_id"
      +:+ " for model " +:+ quoted model)
     None.
(** Thrown by Node when a header is set after the response went out. *)
Definition HeadersSent : t :=
  mk "Error" "Cannot set headers after they are sent to the client"
     (Some (CodeStr "ERR_HTTP_HEADERS_SENT")).
End JsError.

(** JSON values; [JNum] is a number that is an integer, [JFloat] a double,
    [JOid] an ObjectId, [JErr] an error object placed in a body as it is
    ([{ message: err }]).  [JNative name] is no JSON value: it stands for
    what the lookup of [name] in an object literal finds when the literal
    inherits [name] from [Object.prototype] (a function, or for [__proto__]
    the prototype itself). *)
Inductive Json :=
  | JNull
  | JBool (b : bool)
  | JNum (n : Z)
  | JFloat (x : float)
  | JNative (name : string)
  | JStr (s : string)
  | JOid (i : ObjectId)
  | JErr (e : JsError.t)
  | JArr (l : list Json)
  | JObj (fields : list (string * Json)).

(** [o.k] on a JSON object: the first field named [k]. *)
Fixpoint assoc (k : string) (fields : list (string * Json)) : option Json :=
  match fields with
  | [] => None
  | (k', v) :: rest => if String.eqb k k' then Some v else assoc k rest
  end.

Definition jget (k : string) (j : Json) : option Json :=
  match j with
  | JObj fields => assoc k fields
  | _ => None
  end.

Definition jopt {A} (f : A → Json) (o : option A) : Json :=
  match o with Some a => f a | None => JNull end.

(** [o[k] = v] on the fields of an object: an existing key keeps its place,
    a new key goes last. *)
Fixpoint jset (k : string) (v : Json) (fields : list (string * Json))
    : list (string * Json) :=
  match fields with
  | [] => [(k, v)]
  | (k', v') :: rest =>
      if String.eqb k k' then (k, v) :: rest else (k', v') :: jset k v rest
  end.

Definition jput (k : string) (v : Json) (j : Json) : Json :=
  match j with
  | JObj fields => JObj (jset k v fields)
  | _ => j
  end.

(** The property names an object literal inherits from [Object.prototype]. *)
Definition Object_prototype : list string :=
  ["constructor"; "__defineGetter__"; "__defineSetter__"; "hasOwnProperty";
   "__lookupGetter__"; "__lookupSetter__"; "isPrototypeOf";
   "propertyIsEnumerable"; "toString"; "valueOf"; "__proto__";
   "toLocaleString"].

(** [literal[key]] for a key computed at run time, on an object literal
    with the own properties [fields]: an own property, else an inherited
    one, else [undefined]. *)
Definition literal_get (key : string) (fields : list (string * Json))
    : option Json :=
  match assoc key fields with
  | Some v => Some v
  | None =>
      if bool_decide (key ∈ Object_prototype) then Some (JNative key) else None
  end.

(** ** Data models (models/*.js) *)

(** [required: true] on a [String] path: Mongoose rejects a missing value and
    the empty string. *)
Definition required_string (o : option string) : option string :=
  match o with
  | Some s => if String.eqb s "" then None else Some s
  | None => None
  end.

(** Mongoose's cast of a number to a [Number] path: NaN, which is also what
    a text that is no number converts to, does not pass. *)
Definition cast_number (x : float) : option float :=
  if PrimFloat.is_nan x then None else Some x.

Module Category.
Record t := mk {
  name : string;
  icon : option string;
  color : option string;
  image : option string;
}.

Definition toJSON (id : ObjectId) (c : t) : Json :=
  JObj [("_id", JOid id); ("name", JStr (name c));
        ("icon", jopt JStr (icon c)); ("color", jopt JStr (color c));
        ("image", jopt JStr (image c)); ("id", JOid id)].
(** The object handed to [new Category({...})]; an absent field is [None]. *)
Record input := mk_input {
  i_name : option string;
  i_icon : option string;
  i_color : option string;
  i_image : option string;
}.

(** categorySchema: [name] is required. *)
Definition validate (i : input) : JsError.t + t :=
  match required_string (i_name i) with
  | Some n => inr (mk n (i_icon i) (i_color i) (i_image i))
  | None => inl (JsError.ValidationError "Category validation failed")
  end.
End Category.

Module Product.
Record t := mk {
  name : string;
  description : string;
  richDescription : string;
  image : string;
  images : list string;
  brand : string;
  price : float;
  category : ObjectId;
  countInStock : Z;
  rating : Z;
  isFeatured : bool;
  dateCreated : Z;
}.

(** The object handed to [new Product({...})]; an absent field is [None]. *)
Record input := mk_input {
  i_name : option string;
  i_description : option string;
  i_richDescription : option string;
  i_image : option string;
  i_images : list string;
  i_brand : option string;
  i_price : option float;
  i_category : option RawId;
  i_countInStock : option Z;
  i_rating : option Z;
  i_isFeatured : option bool;
}.

(** productSchema: required paths, defaults, the casts of [price] and
    [category], and [min: 0, max: 255] on [countInStock]. *)
Definition validate (now : Z) (i : input) : JsError.t + t :=
  match required_string (i_name i), required_string (i_description i),
        i_category i, i_countInStock i,
        match i_price i with Some x => cast_number x | None => Some 0%float end
  with
  | Some n, Some d, Some (Casts c), Some k, Some p =>
      if ((0 <=? k) && (k <=? 255))%Z then
        inr (mk n d (default "" (i_richDescription i))
                (default "" (i_image i)) (i_images i)
                (default "" (i_brand i)) p c k
                (default 0%Z (i_rating i)) (default false (i_isFeatured i))
                now)
      else inl (JsError.ValidationError "Product validation failed")
  | _, _, _, _, _ => inl (JsError.ValidationError "Product validation failed")
  end.

Definition toJSON (id : ObjectId) (category_json : Json) (p : t) : Json :=
  JObj [("_id", JOid id); ("name", JStr (name p));
        ("description", JStr (description p));
        ("richDescription", JStr (richDescription p));
        ("image", JStr (image p)); ("images", JArr (JStr <$> images p));
        ("brand", JStr (brand p)); ("price", JFloat (price p));
        ("category", category_json);
        ("countInStock", JNum (countInStock p));
        ("rating", JNum (rating p)); ("isFeatured", JBool (isFeatured p));
        ("dateCreated", JNum (dateCreated p)); ("id", JOid id)].
End Product.

Module OrderItem.
Record t := mk { quantity : float; product : ObjectId }.

Record input := mk_input {
  i_quantity : option float;
  i_product : option RawId;
}.

(** orderItemSchema: both paths are required; [quantity] is cast to a
    number and [product] to an ObjectId. *)
Definition validate (i : input) : JsError.t + t :=
  match i_quantity i ≫= cast_number, i_product i ≫= cast_oid with
  | Some q, Some p => inr (mk q p)
  | _, _ => inl (JsError.ValidationError "OrderItem validation failed")
  end.

Definition toJSON (id : ObjectId) (product_json : Json) (oi : t) : Json :=
  JObj [("_id", JOid id); ("quantity", JFloat (quantity oi));
        ("product", product_json); ("id", JOid id)].
End OrderItem.

Module Order.
Record t := mk {
  orderItems : list ObjectId;
  shippingAddress1 : string;
  shippingAddress2 : string;
  city : string;
  zip : string;
  country : string;
  phone : string;
  status : string;
  totalPrice : float;
  user : option ObjectId;
  dateOrdered : Z;
}.

Record input := mk_input {
  i_orderItems : list ObjectId;
  i_shippingAddress1 : option string;
  i_shippingAddress2 : option string;
  i_city : option string;
  i_zip : option string;
  i_country : option string;
  i_phone : option string;
  i_status : option string;
  i_totalPrice : option float;
  i_user : option RawId;
  i_dateOrdered : option Z;
}.

(** [enum: ["Pending", "Shipped", "Delivered", "Cancelled"]] *)
Definition status_enum : list string :=
  ["Pending"; "Shipped"; "Delivered"; "Cancelled"].

Definition in_enum (s : string) : bool :=
  existsb (String.eqb s) status_enum.

(** The cast of the [user] path, which is not required: an absent value
    stays absent, a value that does not cast fails. *)
Definition cast_user (raw : option RawId) : option (option ObjectId) :=
  match raw with
  | None => Some None
  | Some r => Some <$> cast_oid r
  end.

(** orderSchema: required paths, defaults ([shippingAddress2], [status],
    [dateOrdered]), the casts of [totalPrice] and [user] and the enum
    validator on [status]. *)
Definition validate (now : Z) (i : input) : JsError.t + t :=
  match required_string (i_shippingAddress1 i), required_string (i_city i),
        required_string (i_zip i), required_string (i_country i),
        required_string (i_phone i), i_totalPrice i ≫= cast_number,
        cast_user (i_user i) with
  | Some a1, Some c, Some z, Some co, Some ph, Some tp, Some u =>
      let st := default "Pending" (i_status i) in
      if in_enum st then
        inr (mk (i_orderItems i) a1 (default "" (i_shippingAddress2 i))
                c z co ph st tp u (default now (i_dateOrdered i)))
      else inl (JsError.ValidationError "Order validation failed")
  | _, _, _, _, _, _, _ =>
      inl (JsError.ValidationError "Order validation failed")
  end.

Definition set_status (s : string) (o : t) : t :=
  mk (orderItems o) (shippingAddress1 o) (shippingAddress2 o) (city o)
     (zip o) (country o) (phone o) s (totalPrice o) (user o) (dateOrdered o).

Definition toJSON (id : ObjectId) (user_json : Json) (items_json : list Json)
    (o : t) : Json :=
  JObj [("_id", JOid id); ("orderItems", JArr items_json);
        ("shippingAddress1", JStr (shippingAddress1 o));
        ("shippingAddress2", JStr (shippingAddress2 o));
        ("city", JStr (city o)); ("zip", JStr (zip o));
        ("country", JStr (country o)); ("phone", JStr (phone o));
        ("status", JStr (status o)); ("totalPrice", JFloat (totalPrice o));
        ("user", user_json); ("dateOrdered", JNum (dateOrdered o));
        ("id", JOid id)].
End Order.

(** Modelled from the spec: models/User.js is not among the sources; the
    fields are those the users router assigns and the spec's data model
    lists (name, email, password hash, address fields, admin flag). *)
Module User.
Record t := mk {
  name : string;
  email : string;
  passwordHash : string;
  phone : string;
  isAdmin : bool;
  street : string;
  apartment : string;
  zip : string;
  city : string;
  country : string;
}.
End User.

(** ** The database *)

Record Store := mkStore {
  categories : gmap N Category.t;
  products : gmap N Product.t;
  orderItems : gmap N OrderItem.t;
  orders : gmap N Order.t;
  users : gmap N User.t;
}.

Definition set_products (f : gmap N Product.t → gmap N Product.t) (s : Store) :=
  mkStore (categories s) (f (products s)) (orderItems s) (orders s) (users s).
Definition set_orderItems (f : gmap N OrderItem.t → gmap N OrderItem.t) (s : Store) :=
  mkStore (categories s) (products s) (f (orderItems s)) (orders s) (users s).
Definition set_orders (f : gmap N Order.t → gmap N Order.t) (s : Store) :=
  mkStore (categories s) (products s) (orderItems s) (f (orders s)) (users s).

Inductive Collection := CCategory | CProduct | COrderItem | COrder | CUser.

(** Write commands a handler hands to the driver. *)
Inductive DbCmd :=
  | Insert (c : Collection) (id : ObjectId)
  | Update (c : Collection) (id : ObjectId)
  | Delete (c : Collection) (id : ObjectId).

#[global] Instance Collection_eq_dec : EqDecision Collection.
Proof. solve_decision. Defined.
#[global] Instance DbCmd_eq_dec : EqDecision DbCmd.
Proof. solve_decision. Defined.

(** ** The Express response object *)

Record Response := mkResponse { status : Z; body : Json + string }.

(** [statusCode] is what [res.status] last set (200 at first); [sent] is the
    response that went to the client; [refused] are the later attempts to
    send, each of which threw. *)
Record Res := mkRes {
  statusCode : Z;
  sent : option Response;
  refused : list Response;
}.

Definition fresh_res : Res := mkRes 200 None [].

(** ** The handler monad *)

Record HState := mkH { db : Store; res : Res; issued : list DbCmd }.

Inductive Completion (A : Type) :=
  | Normal (a : A)
  | Thrown (e : JsError.t).
Arguments Normal {A} a.
Arguments Thrown {A} e.

Definition M (A : Type) : Type := HState → Completion A * HState.

#[global] Instance M_ret : MRet M := λ A a s, (Normal a, s).
#[global] Instance M_bind : MBind M := λ A B f m s,
  match m s with
  | (Normal a, s') => f a s'
  | (Thrown e, s') => (Thrown e, s')
  end.

Definition throw {A} (e : JsError.t) : M A := λ s, (Thrown e, s).

(** [try { m } catch (e) { h e }], and [promise.catch(h)]. *)
Definition catch {A} (m : M A) (h : JsError.t → M A) : M A := λ s,
  match m s with
  | (Thrown e, s') => h e s'
  | r => r
  end.

(** A started promise runs to its end whatever happens to its siblings. *)
Definition settle {A} (m : M A) : M (Completion A) := λ s,
  let '(c, s') := m s in (Normal c, s').

Fixpoint start_all {A B} (f : A → M B) (xs : list A) : M (list (Completion B)) :=
  match xs with
  | [] => mret []
  | x :: rest => c ← settle (f x); cs ← start_all f rest; mret (c :: cs)
  end.

Fixpoint first_rejection {B} (cs : list (Completion B)) : JsError.t + list B :=
  match cs with
  | [] => inr []
  | Thrown e :: _ => inl e
  | Normal b :: rest =>
      match first_rejection rest with
      | inl e => inl e
      | inr bs => inr (b :: bs)
      end
  end.

(** [await Promise.all(xs.map(async x => f x))]: every callback is started
    and does its work; the await yields all results, or throws the
    rejection of the first element that rejected. *)
Definition promise_all_map {A B} (f : A → M B) (xs : list A) : M (list B) :=
  cs ← start_all f xs;
  match first_rejection cs with
  | inl e => throw e
  | inr bs => mret bs
  end.

Definition get_db : M Store := λ s, (Normal (db s), s).
Definition modify_db (f : Store → Store) : M unit :=
  λ s, (Normal tt, mkH (f (db s)) (res s) (issued s)).
Definition issue (c : DbCmd) : M unit :=
  λ s, (Normal tt, mkH (db s) (res s) (issued s ++ [c])).

(** [res.status(code)] *)
Definition res_status (code : Z) : M unit := λ s,
  (Normal tt, mkH (db s) (mkRes code (sent (res s)) (refused (res s))) (issued s)).

(** [res.json(b)] and [res.send(b)]: the first call writes the response; a
    call after that throws, since the headers are out. *)
Definition res_write (b : Json + string) : M unit := λ s,
  let r := mkResponse (statusCode (res s)) b in
  match sent (res s) with
  | None =>
      (Normal tt, mkH (db s) (mkRes (statusCode (res s)) (Some r) (refused (res s))) (issued s))
  | Some _ =>
      (Thrown JsError.HeadersSent,
       mkH (db s) (mkRes (statusCode (res s)) (sent (res s)) (refused (res s) ++ [r])) (issued s))
  end.

Definition res_json (j : Json) : M unit := res_write (inl j).
Definition res_send (j : Json) : M unit := res_write (inl j).
Definition res_send_text (t : string) : M unit := res_write (inr t).

(** Running a handler on a database, with a new response object. *)
Definition run {A} (m : M A) (d : Store) : Completion A * HState :=
  m (mkH d fresh_res []).

Definition wire (r : Completion unit * HState) : option Response := sent (res r.2).
Definition wire_status (r : Completion unit * HState) : option Z :=
  status <$> wire r.

(** A query by identifier begins by casting what it was handed: a value
    that does not cast makes the query of [model] reject with a CastError,
    and nothing is sent to the database. *)
Definition cast_id (model : string) (raw : RawId) : M ObjectId :=
  match raw with
  | Casts id => mret id
  | NoCast v => throw (JsError.CastError v model)
  end.

(** ** routers/orders.js *)

Module Orders.
Local Open Scope Z_scope.

Record post_body := mk_post_body {
  b_orderItems : list OrderItem.input;
  b_shippingAddress1 : option string;
  b_shippingAddress2 : option string;
  b_city : option string;
  b_zip : option string;
  b_country : option string;
  b_phone : option string;
  b_status : option string;
  b_user : option RawId;
  b_dateOrdered : option Z;
}.

(** [new OrderItem({...})] draws an unused [_id]; [save()] validates the
    document against the schema and inserts it. *)
Definition save_orderItem (i : OrderItem.input) : M ObjectId :=
  d ← get_db;
  let id := fresh (dom (orderItems d)) in
  match OrderItem.validate i with
  | inl e => throw e
  | inr oi =>
      _ ← issue (Insert COrderItem id);
      _ ← modify_db (set_orderItems (insert id oi));
      mret id
  end.

(** [new Order({...}).save()] *)
Definition save_order (now : Z) (i : Order.input) : M (ObjectId * Order.t) :=
  d ← get_db;
  let id := fresh (dom (orders d)) in
  match Order.validate now i with
  | inl e => throw e
  | inr o =>
      _ ← issue (Insert COrder id);
      _ ← modify_db (set_orders (insert id o));
      mret (id, o)
  end.

(** [OrderItem.findById(orderItemId).populate("product", "price")] followed
    by [orderItem.product.price * orderItem.quantity]; reading a property
    of [null] throws a TypeError. *)
Definition line_price (orderItemId : ObjectId) : M float :=
  d ← get_db;
  match orderItems d !! orderItemId with
  | None =>
      throw (JsError.TypeError "Cannot read properties of null (reading 'product')")
  | Some orderItem =>
      match products d !! OrderItem.product orderItem with
      | None =>
          throw (JsError.TypeError "Cannot read properties of null (reading 'price')")
      | Some product =>
          mret (Product.price product * OrderItem.quantity orderItem)%float
      end
  end.

Definition plain_json (id : ObjectId) (o : Order.t) : Json :=
  Order.toJSON id (jopt JOid (Order.user o)) (JOid <$> Order.orderItems o) o.

(** router.post(`/`) *)
Definition post (body : post_body) (now : Z) : M unit :=
  orderItemIds ← promise_all_map save_orderItem (b_orderItems body);
  totalPrice ← promise_all_map line_price orderItemIds;
  let totalPriceSum :=
    fold_left (λ acc price, (acc + price)%float) totalPrice 0%float in
  let order :=
    Order.mk_input orderItemIds (b_shippingAddress1 body)
      (b_shippingAddress2 body) (b_city body) (b_zip body) (b_country body)
      (b_phone body) (b_status body) (Some totalPriceSum) (b_user body)
      (b_dateOrdered body) in
  catch
    (createdOrder ← save_order now order;
     _ ← res_status 201;
     res_json (plain_json createdOrder.1 createdOrder.2))
    (λ err,
     _ ← res_status 500;
     res_json (JObj [("error", JStr (JsError.message err));
                     ("success", JBool false)])).

(** The populated view of an order: the user's name, and for each order
    item that still exists its product with the product's category. *)
Definition populated_product (d : Store) (pid : ObjectId) : Json :=
  match products d !! pid with
  | None => JNull
  | Some p =>
      Product.toJSON pid
        (jopt (Category.toJSON (Product.category p))
              (categories d !! Product.category p)) p
  end.

Definition populated_item (d : Store) (iid : ObjectId) : option Json :=
  oi ← orderItems d !! iid;
  Some (OrderItem.toJSON iid (populated_product d (OrderItem.product oi)) oi).

Definition populated_user (d : Store) (uid : ObjectId) : Json :=
  match users d !! uid with
  | None => JNull
  | Some u => JObj [("_id", JOid uid); ("name", JStr (User.name u))]
  end.

Definition populated_order (d : Store) (id : ObjectId) (o : Order.t) : Json :=
  Order.toJSON id (jopt (populated_user d) (Order.user o))
    (omap (populated_item d) (Order.orderItems o)) o.

(** router.get(`/:id`): the not-found branch does not return, so
    [res.send(order)] is called after it.  A rejection of [findById] leaves
    the async handler, which has no [try]. *)
Definition get_by_id (raw : RawId) : M unit :=
  id ← cast_id "Order" raw;
  d ← get_db;
  let order := populated_order d id <$> orders d !! id in
  _ ← (if order is None then
         _ ← res_status 404;
         res_json (JObj [("success", JBool false);
                         ("message", JStr "Order not found")])
       else mret tt);
  res_send (default JNull order).

(** router.get(`/get/count`) *)
Definition get_count : M unit :=
  d ← get_db;
  let orderCount := Z.of_nat (size (orders d)) in
  _ ← (if orderCount =? 0 then
         _ ← res_status 500;
         res_json (JObj [("success", JBool false);
                         ("message", JStr "Orders not found")])
       else mret tt);
  res_send (JObj [("count", JNum orderCount)]).

(** [Order.findByIdAndUpdate(id, { status }, { new: true })]: the update is
    cast and applied; the schema validators are not run, since the
    options do not ask for them.  An undefined [status] leaves the update
    empty. *)
Definition findByIdAndUpdate (raw : RawId) (new_status : option string)
    : M (option (ObjectId * Order.t)) :=
  id ← cast_id "Order" raw;
  d ← get_db;
  _ ← issue (Update COrder id);
  match orders d !! id with
  | None => mret None
  | Some o =>
      let o' := match new_status with
                | Some s => Order.set_status s o
                | None => o
                end in
      _ ← modify_db (set_orders (insert id o'));
      mret (Some (id, o'))
  end.

(** router.put(`/:id`) *)
Definition put (raw : RawId) (body_status : option string) : M unit :=
  order ← findByIdAndUpdate raw body_status;
  match order with
  | None =>
      _ ← res_status 400;
      res_json (JObj [("success", JBool false);
                      ("message", JStr "Order not found")])
  | Some o => res_send (plain_json o.1 o.2)
  end.

Definition findByIdAndDelete (raw : RawId) : M (option Order.t) :=
  id ← cast_id "Order" raw;
  d ← get_db;
  _ ← issue (Delete COrder id);
  _ ← modify_db (set_orders (delete id));
  mret (orders d !! id).

(** [OrderItem.findByIdAndDelete(orderItem)] *)
Definition delete_orderItem (id : ObjectId) : M unit :=
  _ ← issue (Delete COrderItem id);
  modify_db (set_orderItems (delete id)).

(** router.delete("/:id"): [await] on the array that [map] returns does not
    wait for the deletions and does not see their rejections; each
    callback has been started.  A rejection of [findByIdAndDelete] goes to
    the [catch] arm. *)
Definition delete (raw : RawId) : M unit :=
  catch
    (order ← findByIdAndDelete raw;
     match order with
     | Some o =>
         _ ← start_all delete_orderItem (Order.orderItems o);
         _ ← res_status 200;
         res_json (JObj [("success", JBool true);
                         ("message", JStr "Order deleted successfully")])
     | None =>
         _ ← res_status 404;
         res_json (JObj [("success", JBool false);
                         ("message", JStr "Order not found")])
     end)
    (λ err,
     _ ← res_status 500;
     res_json (JObj [("success", JBool false);
                     ("error", JStr (JsError.message err))])).
End Orders.

(** ** routers/products.js *)

Module Products.
Local Open Scope Z_scope.

(** What the upload middleware leaves in [req.file]. *)
Record file := mk_file { filename : string }.

(** The request as the POST handler reads it: the body fields (the body's
    own [image] is not read), [req.file], [req.protocol] and the Host
    header. *)
Record post_req := mk_post_req {
  r_body : Product.input;
  r_file : option file;
  r_protocol : string;
  r_host : string;
}.

Definition populated (d : Store) (id : ObjectId) (p : Product.t) : Json :=
  Product.toJSON id
    (jopt (Category.toJSON (Product.category p))
          (categories d !! Product.category p)) p.

(** router.get(`/:id`): a rejection of [findById] leaves the async handler,
    which has no [try]. *)
Definition get_by_id (raw : RawId) : M unit :=
  id ← cast_id "Product" raw;
  d ← get_db;
  let product := populated d id <$> products d !! id in
  _ ← (if product is None then
         _ ← res_status 404;
         res_json (JObj [("success", JBool false);
                         ("message", JStr "Product not found")])
       else mret tt);
  res_send (default JNull product).

(** router.get(`/get/count`) *)
Definition get_count : M unit :=
  d ← get_db;
  let productCount := Z.of_nat (size (products d)) in
  _ ← (if productCount =? 0 then
         _ ← res_status 500;
         res_json (JObj [("success", JBool false);
                         ("message", JStr "Products not found")])
       else mret tt);
  res_send (JObj [("count", JNum productCount)]).

(** [new Product({...}).save()] *)
Definition save_product (now : Z) (i : Product.input) : M (ObjectId * Product.t) :=
  d ← get_db;
  let id := fresh (dom (products d)) in
  match Product.validate now i with
  | inl e => throw e
  | inr p =>
      _ ← issue (Insert CProduct id);
      _ ← modify_db (set_products (insert id p));
      mret (id, p)
  end.

(** [Category.findById(req.body.category)]: for an absent value the query
    is one for [_id: null], which finds nothing. *)
Definition find_category (raw : option RawId) : M (option Category.t) :=
  match raw with
  | None => mret None
  | Some raw =>
      id ← cast_id "Category" raw;
      d ← get_db;
      mret (categories d !! id)
  end.

(** router.post(`/`): the handler that runs once the upload middleware has
    passed the request on.  A rejection of [findById] or of [save()] leaves
    the async handler, which has no [try]; [save()] resolves to the
    document or rejects, so the test [!product] after it is never true. *)
Definition post (req : post_req) (now : Z) : M unit :=
  category ← find_category (Product.i_category (r_body req));
  match category with
  | None => _ ← res_status 400; res_send_text "Invalid Category"
  | Some _ =>
      match r_file req with
      | None => _ ← res_status 400; res_send_text "No image in the request"
      | Some f =>
          let fileName := filename f in
          let basePath :=
            r_protocol req +:+ "://" +:+ r_host req +:+ "/public/uploads/" in
          let b := r_body req in
          product ← save_product now
            (Product.mk_input (Product.i_name b) (Product.i_description b)
               (Product.i_richDescription b) (Some (basePath +:+ fileName))
               (Product.i_images b) (Product.i_brand b) (Product.i_price b)
               (Product.i_category b) (Product.i_countInStock b)
               (Product.i_rating b) (Product.i_isFeatured b));
          res_send (Product.toJSON product.1
                      (JOid (Product.category product.2)) product.2)
      end
  end.
(** [Product.findByIdAndDelete(id)] *)
Definition findByIdAndDelete (raw : RawId) : M (option Product.t) :=
  id ← cast_id "Product" raw;
  d ← get_db;
  _ ← issue (Delete CProduct id);
  _ ← modify_db (set_products (delete id));
  mret (products d !! id).

(** router.delete("/:id") *)
Definition delete (raw : RawId) : M unit :=
  catch
    (product ← findByIdAndDelete raw;
     match product with
     | Some _ =>
         _ ← res_status 200;
         res_json (JObj [("success", JBool true);
                         ("message", JStr "Product deleted successfully")])
     | None =>
         _ ← res_status 404;
         res_json (JObj [("success", JBool false);
                         ("message", JStr "Product not found")])
     end)
    (λ err,
     _ ← res_status 500;
     res_json (JObj [("success", JBool false);
                     ("error", JStr (JsError.message err))])).
End Products.

(** ** routers/categories.js *)

Module Categories.
Local Open Scope Z_scope.

(** router.get(`/:id`) *)
Definition get_by_id (raw : RawId) : M unit :=
  catch
    (id ← cast_id "Category" raw;
     d ← get_db;
     match categories d !! id with
     | Some category =>
         _ ← res_status 200;
         res_json (JObj [("category", Category.toJSON id category)])
     | None =>
         _ ← res_status 404;
         res_json (JObj [("success", JBool false);
                         ("message", JStr "Category not found")])
     end)
    (λ err,
     _ ← res_status 500;
     res_json (JObj [("success", JBool false);
                     ("error", JStr (JsError.message err))])).
Definition set_categories (f : gmap N Category.t → gmap N Category.t) (s : Store) :=
  mkStore (f (categories s)) (products s) (orderItems s) (orders s) (users s).

(** [new Category({...}).save()] *)
Definition save_category (i : Category.input) : M (ObjectId * Category.t) :=
  d ← get_db;
  let id := fresh (dom (categories d)) in
  match Category.validate i with
  | inl e => throw e
  | inr c =>
      _ ← issue (Insert CCategory id);
      _ ← modify_db (set_categories (insert id c));
      mret (id, c)
  end.

(** router.post(`/`): [save()] resolves to the document or rejects, so the
    test [!category] after it is never true; a rejection leaves the async
    handler, which has no [try]. *)
Definition post (body : Category.input) : M unit :=
  category ← save_category body;
  res_send (Category.toJSON category.1 category.2).

(** [Category.findByIdAndDelete(id)] *)
Definition findByIdAndDelete (raw : RawId) : M (option Category.t) :=
  id ← cast_id "Category" raw;
  d ← get_db;
  _ ← issue (Delete CCategory id);
  _ ← modify_db (set_categories (delete id));
  mret (categories d !! id).

(** router.delete("/:id") *)
Definition delete (raw : RawId) : M unit :=
  catch
    (category ← findByIdAndDelete raw;
     match category with
     | Some _ =>
         _ ← res_status 200;
         res_json (JObj [("success", JBool true);
                         ("message", JStr "Category deleted successfully")])
     | None =>
         _ ← res_status 404;
         res_json (JObj [("success", JBool false);
                         ("message", JStr "Category not found")])
     end)
    (λ err,
     _ ← res_status 500;
     res_json (JObj [("success", JBool false);
                     ("error", JStr (JsError.message err))])).
End Categories.

(** ** routers/users.js *)

Module Users.
Local Open Scope Z_scope.

(** router.get(`/get/count`) *)
Definition get_count : M unit :=
  d ← get_db;
  let userCount := Z.of_nat (size (users d)) in
  _ ← (if userCount =? 0 then
         _ ← res_status 500;
         res_json (JObj [("success", JBool false);
                         ("message", JStr "Users not found")])
       else mret tt);
  res_send (JObj [("count", JNum userCount)]).
End Users.

(** ** helpers/error-handler.js *)

Module ErrorHandler.
Local Open Scope Z_scope.
Import JsError.

Definition message_body (m : string) : Json := JObj [("message", JStr m)].

Definition errorHandler (err : JsError.t) : M unit :=
  if String.eqb (name err) "UnauthorizedError" then
    _ ← res_status 401; res_json (message_body "Unauthorized")
  else if String.eqb (name err) "NotFoundError" then
    _ ← res_status 404; res_json (message_body "Resource not found")
  else if String.eqb (name err) "ValidationError" then
    _ ← res_status 400; res_json (message_body (message err))
  else if String.eqb (name err) "CastError" then
    _ ← res_status 400; res_json (message_body "Invalid ID format")
  else if String.eqb (name err) "JsonWebTokenError" then
    _ ← res_status 401; res_json (message_body "Invalid token")
  else if String.eqb (name err) "TokenExpiredError" then
    _ ← res_status 401; res_json (message_body "Token expired")
  else if String.eqb (name err) "MongoError"
          && bool_decide (code err = Some (CodeNum 11000)) then
    _ ← res_status 400; res_json (message_body "Duplicate key error")
  else if String.eqb (name err) "MulterError" then
    _ ← res_status 400; res_json (message_body (message err))
  else if String.eqb (name err) "SyntaxError" then
    _ ← res_status 400; res_json (message_body "Invalid JSON format")
  else if String.eqb (name err) "RangeError" then
    _ ← res_status 400; res_json (message_body "Range error")
  else if String.eqb (name err) "TypeError" then
    _ ← res_status 400;
    res_json (JObj [("message", JStr "Type error"); ("error", JErr err)])
  else if String.eqb (name err) "ReferenceError" then
    _ ← res_status 400; res_json (message_body "Reference error")
  else
    _ ← res_status 500; res_json (JObj [("message", JErr err)]).

(** The response the middleware writes on a response object nothing has
    been written to. *)
Definition respond (err : JsError.t) : option Response :=
  sent (res (errorHandler err (mkH (mkStore ∅ ∅ ∅ ∅ ∅) fresh_res [])).2).

Definition status_of (err : JsError.t) : option Z := status <$> respond err.

(** The categories of section 7 of the specification, by error name. *)
Definition is_authentication_failure (err : JsError.t) : Prop :=
  name err = "UnauthorizedError" ∨ name err = "JsonWebTokenError"
  ∨ name err = "TokenExpiredError".
Definition is_not_found (err : JsError.t) : Prop :=
  name err = "NotFoundError".
Definition is_validation_cast_duplicate_or_parse (err : JsError.t) : Prop :=
  name err = "ValidationError" ∨ name err = "CastError"
  ∨ (name err = "MongoError" ∧ code err = Some (CodeNum 11000))
  ∨ name err = "SyntaxError".
(** The remaining names the middleware answers with 400. *)
Definition is_other_client_error (err : JsError.t) : Prop :=
  name err = "MulterError" ∨ name err = "RangeError"
  ∨ name err = "TypeError" ∨ name err = "ReferenceError".
End ErrorHandler.

(** ** Strings as the routing and documentation code uses them *)

Module Str.

(** [s.includes(sub)] *)
Fixpoint includes (sub s : string) : bool :=
  String.prefix sub s ||
  match s with
  | EmptyString => false
  | String _ rest => includes sub rest
  end.

(** [s.endsWith(suffix)] *)
Definition endsWith (suffix s : string) : bool :=
  String.prefix (String.rev suffix) (String.rev s).

(** [s.split(sep)] for a one-character separator. *)
Fixpoint split_aux (sep : ascii) (s : string) (cur : string) : list string :=
  match s with
  | EmptyString => [String.rev cur]
  | String c rest =>
      if Ascii.eqb c sep then String.rev cur :: split_aux sep rest ""
      else split_aux sep rest (String c cur)
  end.
Definition split (sep : ascii) (s : string) : list string := split_aux sep s "".

Definition upper_char (c : ascii) : ascii :=
  let n := nat_of_ascii c in
  if (97 <=? n)%nat && (n <=? 122)%nat then ascii_of_nat (n - 32) else c.
Definition lower_char (c : ascii) : ascii :=
  let n := nat_of_ascii c in
  if (65 <=? n)%nat && (n <=? 90)%nat then ascii_of_nat (n + 32) else c.

Fixpoint map_chars (f : ascii → ascii) (s : string) : string :=
  match s with
  | EmptyString => EmptyString
  | String c rest => String (f c) (map_chars f rest)
  end.
Definition toUpperCase : string → string := map_chars upper_char.
Definition toLowerCase : string → string := map_chars lower_char.

(** [p.charAt(0).toUpperCase() + p.slice(1)] *)
Definition capitalize (s : string) : string :=
  match s with
  | EmptyString => EmptyString
  | String c rest => String (upper_char c) rest
  end.

(** [s.slice(0, -1)] *)
Definition drop_last (s : string) : string :=
  String.rev (match String.rev s with
              | EmptyString => EmptyString
              | String _ r => r
              end).

Definition join (parts : list string) : string :=
  fold_right String.append "" parts.

(** The path segments between slashes, empty ones dropped. *)
Definition segments (path : string) : list string :=
  filter (λ p, p ≠ "") (split "/" path).
End Str.

(** ** The routers' route tables ([router.stack]) in registration order *)

Record Route := mkRoute { r_method : string; r_path : string }.

#[global] Instance Route_eq_dec : EqDecision Route.
Proof. solve_decision. Defined.

Module Stack.
Definition products : list Route :=
  [mkRoute "get" "/"; mkRoute "get" "/:id"; mkRoute "get" "/get/count";
   mkRoute "get" "/get/featured/:count"; mkRoute "post" "/";
   mkRoute "delete" "/:id"; mkRoute "put" "/:id";
   mkRoute "put" "/gallery-images/:id"].
Definition categories : list Route :=
  [mkRoute "get" "/"; mkRoute "get" "/:id"; mkRoute "post" "/";
   mkRoute "put" "/:id"; mkRoute "delete" "/:id"].
Definition orders : list Route :=
  [mkRoute "get" "/"; mkRoute "get" "/:id"; mkRoute "get" "/get/count";
   mkRoute "get" "/get/totalsales"; mkRoute "get" "/get/status/:status";
   mkRoute "get" "/get/userorders/:userId"; mkRoute "post" "/";
   mkRoute "put" "/:id"; mkRoute "delete" "/:id"].
Definition users : list Route :=
  [mkRoute "get" "/"; mkRoute "get" "/:id"; mkRoute "get" "/get/count";
   mkRoute "post" "/"; mkRoute "post" "/login"; mkRoute "put" "/:id";
   mkRoute "delete" "/:id"].
End Stack.

(** ** helpers/jwt.js *)

Module Jwt.
(** What verifying the bearer token with the secret and HS256 finds. *)
Record token := mk_token {
  signature_valid : bool;
  expired : bool;
  payload_isAdmin : bool;
}.

Record request := mk_request {
  method : string;
  path : string;
  bearer : option token;
}.

(** An entry of [unless({ path: [...] })]: a regular expression without
    anchors, which matches when the path contains the text, or a string,
    which matches when the path is equal to it; with or without a list of
    methods. *)
Inductive url_pattern :=
  | Containing (text : string)
  | Exactly (text : string).

Record path_rule := mk_rule {
  url : url_pattern;
  methods : option (list string);
}.

Definition allow_list (api : string) : list path_rule :=
  [mk_rule (Containing "/api-docs") (Some ["GET"; "OPTIONS"]);
   mk_rule (Containing "/public/uploads") (Some ["GET"; "OPTIONS"]);
   mk_rule (Containing "/api/v1/products") (Some ["GET"; "OPTIONS"]);
   mk_rule (Containing "/api/v1/categories") (Some ["GET"; "OPTIONS"]);
   mk_rule (Exactly (api +:+ "/users/login")) None;
   mk_rule (Exactly (api +:+ "/users/regiseter")) None].

Definition url_match (p : url_pattern) (pathname : string) : bool :=
  match p with
  | Containing text => Str.includes text pathname
  | Exactly text => String.eqb text pathname
  end.

Definition method_match (ms : option (list string)) (m : string) : bool :=
  match ms with
  | None => true
  | Some l => existsb (String.eqb m) l
  end.

Definition allow_listed (api : string) (req : request) : bool :=
  existsb (λ r, url_match (url r) (path req) && method_match (methods r) (method req))
          (allow_list api).

(** A token the gate accepts: signed with the secret, not expired, and
    carrying the isAdmin claim. *)
Definition acceptable (t : token) : bool :=
  signature_valid t && negb (expired t) && payload_isAdmin t.

Definition isRevoked (t : token) : bool :=
  if negb (payload_isAdmin t) then true else false.

Definition UnauthorizedError (code msg : string) : JsError.t :=
  JsError.mk "UnauthorizedError" msg (Some (CodeStr code)).

Inductive gate_result :=
  | Skipped                      (* allow-listed: next() with no check *)
  | Verified (t : token)         (* next() after the token was accepted *)
  | Rejected (e : JsError.t).    (* next(err) *)

(** The middleware [authJwt()] returns. *)
Definition authJwt (api : string) (req : request) : gate_result :=
  if allow_listed api req then Skipped
  else
    match bearer req with
    | None =>
        Rejected (UnauthorizedError "credentials_required"
                    "No authorization token was found")
    | Some t =>
        if negb (signature_valid t) then
          Rejected (UnauthorizedError "invalid_token" "invalid signature")
        else if expired t then
          Rejected (UnauthorizedError "invalid_token" "jwt expired")
        else if isRevoked t then
          Rejected (UnauthorizedError "revoked_token"
                      "The token has been revoked.")
        else Verified t
    end.
End Jwt.

(** ** app.js: the middleware stack *)

Module App.
Import Jwt.

Inductive layer :=
  | Cors
  | PassOn (name : string)                 (* express.json(), morgan *)
  | Static (mount : string)
  | Router (mount : string) (name : string) (stack : list Route)
  | AuthJwt
  | ErrorHandlerLayer
  | Docs (mount : string).

(** The [app.use] calls of app.js, in the order they are made. *)
Definition app (api : string) : list layer :=
  [Cors; PassOn "express.json"; PassOn "morgan";
   Static "/public/uploads";
   Router (api +:+ "/products") "products" Stack.products;
   Router (api +:+ "/categories") "categories" Stack.categories;
   Router (api +:+ "/orders") "orders" Stack.orders;
   Router (api +:+ "/users") "users" Stack.users;
   AuthJwt;
   ErrorHandlerLayer;
   Docs "/api-docs"].

(** Whether the token check has run by the time a handler is reached. *)
Inductive gate_state := NotRun | Bypassed | Passed.

Inductive outcome :=
  | Preflight                      (* cors answers OPTIONS with 204 *)
  | ServedFile
  | Handler (router : string) (route : Route) (gate : gate_state)
  | ErrorResponse (r : option Response)
  | ServedDocs (gate : gate_state)
  | Unhandled (err : option JsError.t).  (* Express's final handler *)

(** The app and the routers are created with Express's default options, so
    paths are matched without regard to letter case. *)
Definition same_segment (a b : string) : bool :=
  String.eqb (Str.toLowerCase a) (Str.toLowerCase b).

(** [app.use(mount, ...)]: the path begins with the mount path, segment by
    segment; the rest is what the router sees. *)
Fixpoint strip_mount (mount path : list string) : option (list string) :=
  match mount, path with
  | [], rest => Some rest
  | m :: ms, p :: ps => if same_segment m p then strip_mount ms ps else None
  | _ :: _, [] => None
  end.

(** A route path matches segment by segment; [:name] matches any one
    segment. *)
Fixpoint match_segments (pattern path : list string) : bool :=
  match pattern, path with
  | [], [] => true
  | p :: ps, s :: ss =>
      (String.prefix ":" p || same_segment p s) && match_segments ps ss
  | _, _ => false
  end.

(** A route takes the requests of its method; a route for GET also takes
    HEAD, no router here having a route for HEAD. *)
Definition route_matches (m : string) (sub : list string) (r : Route) : bool :=
  let name := Str.toLowerCase m in
  (String.eqb name (r_method r)
   || String.eqb name "head" && String.eqb (r_method r) "get")
  && match_segments (Str.segments (r_path r)) sub.

Fixpoint dispatch (api : string) (files : list string) (layers : list layer)
    (req : request) (err : option JsError.t) (gate : gate_state) : outcome :=
  match layers with
  | [] => Unhandled err
  | l :: rest =>
      match err with
      | Some e =>
          match l with
          | ErrorHandlerLayer => ErrorResponse (ErrorHandler.respond e)
          | _ => dispatch api files rest req err gate
          end
      | None =>
          match l with
          | Cors =>
              if String.eqb (method req) "OPTIONS" then Preflight
              else dispatch api files rest req err gate
          | PassOn _ => dispatch api files rest req err gate
          | Static mount =>
              if (String.eqb (method req) "GET" || String.eqb (method req) "HEAD")
                 && bool_decide (is_Some (strip_mount (Str.segments mount)
                                            (Str.segments (path req))))
                 && bool_decide (path req ∈ files)
              then ServedFile
              else dispatch api files rest req err gate
          | Router mount name stack =>
              match strip_mount (Str.segments mount) (Str.segments (path req)) with
              | Some sub =>
                  match find (route_matches (method req) sub) stack with
                  | Some r => Handler name r gate
                  | None => dispatch api files rest req err gate
                  end
              | None => dispatch api files rest req err gate
              end
          | AuthJwt =>
              match authJwt api req with
              | Skipped => dispatch api files rest req None Bypassed
              | Verified _ => dispatch api files rest req None Passed
              | Rejected e => dispatch api files rest req (Some e) gate
              end
          | ErrorHandlerLayer => dispatch api files rest req err gate
          | Docs mount =>
              if bool_decide (is_Some (strip_mount (Str.segments mount)
                                         (Str.segments (path req))))
              then ServedDocs gate
              else dispatch api files rest req err gate
          end
      end
  end.

Definition handle (api : string) (files : list string) (req : request) : outcome :=
  dispatch api files (app api) req None NotRun.

(** For comparison: the same layers with the gate mounted before the
    routers. *)
Definition gate_first (api : string) : list layer :=
  [Cors; PassOn "express.json"; PassOn "morgan";
   Static "/public/uploads"; AuthJwt;
   Router (api +:+ "/products") "products" Stack.products;
   Router (api +:+ "/categories") "categories" Stack.categories;
   Router (api +:+ "/orders") "orders" Stack.orders;
   Router (api +:+ "/users") "users" Stack.users;
   ErrorHandlerLayer; Docs "/api-docs"].
End App.

(** ** utils/swagger-route-generator.js *)

Module RouteGenerator.
Definition type_of (t : string) : (string * Json) := ("type", JStr t).

(** The scan behind [/:([^\/]+)/g]: after a colon, the longest run of
    characters other than a slash is a parameter name, when it is not
    empty.  [cur] holds the name being read, reversed. *)
Definition close_name (cur : option string) : list string :=
  match cur with
  | Some n => if String.eqb n "" then [] else [String.rev n]
  | None => []
  end.

Fixpoint scan_params (s : string) (cur : option string) : list string :=
  match s with
  | EmptyString => close_name cur
  | String c rest =>
      match cur with
      | None =>
          if Ascii.eqb c ":" then scan_params rest (Some "")
          else scan_params rest None
      | Some n =>
          if Ascii.eqb c "/" then close_name cur ++ scan_params rest None
          else scan_params rest (Some (String c n))
      end
  end.

Definition extractPathParams (routePath : string) : list Json :=
  (λ name, JObj [("name", JStr name); ("in", JStr "path");
                 ("required", JBool true);
                 ("schema", JObj [type_of "string"])])
  <$> scan_params routePath None.

Definition strip_leading_slash (s : string) : string :=
  match s with
  | String c rest => if Ascii.eqb c "/" then rest else s
  | EmptyString => s
  end.
Definition strip_trailing_slash (s : string) : string :=
  if Str.endsWith "/" s then Str.drop_last s else s.
Definition replace_char (a b : ascii) (s : string) : string :=
  Str.map_chars (λ c, if Ascii.eqb c a then b else c) s.
Fixpoint remove_char (a : ascii) (s : string) : string :=
  match s with
  | EmptyString => EmptyString
  | String c rest =>
      if Ascii.eqb c a then remove_char a rest else String c (remove_char a rest)
  end.

Definition generateOperationId (routePath method : string) : string :=
  let pathParts :=
    filter (λ p, p ≠ "")
      (Str.split "_"
         (replace_char "-" "_"
            (remove_char ":"
               (replace_char "/" "_"
                  (strip_trailing_slash (strip_leading_slash routePath)))))) in
  let methodPrefix := Str.toLowerCase method in
  if bool_decide (length pathParts = 0) then methodPrefix +:+ "Root"
  else if bool_decide ("get" ∈ pathParts) && bool_decide (1 < length pathParts) then
    methodPrefix +:+ Str.capitalize (default "" (pathParts !! 1))
  else
    methodPrefix +:+
    Str.join (imap (λ i p, if bool_decide (i = 0) then p else Str.capitalize p)
                   pathParts).

(** [path.basename(routerFile, '.js')] on a bare file name. *)
Definition basename_js (routerFile : string) : string :=
  if Str.endsWith ".js" routerFile
  then Str.drop_last (Str.drop_last (Str.drop_last routerFile))
  else routerFile.

Definition generateTag (routerFile : string) : string :=
  Str.capitalize (basename_js routerFile).

Definition schema_ref (name : string) : Json :=
  JObj [("$ref", JStr ("#/components/schemas/" +:+ name))].

Definition json_content (schema : Json) : Json :=
  JObj [("application/json", JObj [("schema", schema)])].

Definition errorResponses : list (string * Json) :=
  [("400", JObj [("description", JStr "Bad request");
                 ("content", json_content (schema_ref "Error"))]);
   ("401", JObj [("$ref", JStr "#/components/responses/UnauthorizedError")]);
   ("404", JObj [("$ref", JStr "#/components/responses/NotFoundError")]);
   ("500", JObj [("description", JStr "Server error");
                 ("content", json_content (schema_ref "Error"))])].

Definition success (description : string) (schema : Json) : Json :=
  JObj [("description", JStr description); ("content", json_content schema)].

Definition singular (tag : string) : string :=
  if Str.endsWith "s" tag then Str.drop_last tag else tag.

Definition count_schema : Json :=
  JObj [type_of "object";
        ("properties",
         JObj [("count", JObj [type_of "integer"; ("example", JNum 42)])])].

Definition deleted_schema (singularTag : string) : Json :=
  JObj [type_of "object";
        ("properties",
         JObj [("success", JObj [type_of "boolean"; ("example", JBool true)]);
               ("message",
                JObj [type_of "string";
                      ("example", JStr (singularTag +:+ " deleted successfully"))])])].

Definition login_schema : Json :=
  JObj [type_of "object";
        ("properties",
         JObj [("user", JObj [type_of "string"; ("example", JStr "user@example.com")]);
               ("token", JObj [type_of "string"; ("example", JStr "eyJhbGciOiJIUzI1...")])])].

Definition array_of (singularTag : string) : Json :=
  JObj [type_of "array"; ("items", schema_ref singularTag)].

Definition is_root (routePath : string) : bool :=
  String.eqb routePath "/" || String.eqb routePath "".

Definition successResponse (routePath method tag : string) : Json :=
  let singularTag := singular tag in
  if String.eqb method "get" && is_root routePath then
    success ("List of " +:+ tag) (array_of singularTag)
  else if String.eqb method "get" && Str.includes "/:id" routePath then
    success (singularTag +:+ " details") (schema_ref singularTag)
  else if String.eqb method "get" && Str.includes "/count" routePath then
    success (singularTag +:+ " count") count_schema
  else if String.eqb method "post" && is_root routePath then
    success ("Created " +:+ singularTag) (schema_ref singularTag)
  else if String.eqb method "put" && Str.includes "/:id" routePath then
    success ("Updated " +:+ singularTag) (schema_ref singularTag)
  else if String.eqb method "delete" && Str.includes "/:id" routePath then
    success (singularTag +:+ " deleted") (deleted_schema singularTag)
  else if String.eqb method "post" && Str.includes "/login" routePath then
    success "Login successful" login_schema
  else success "Successful operation" (JObj []).

Definition determineResponseSchema (routePath method tag : string) : Json :=
  JObj (("200", successResponse routePath method tag) :: errorResponses).

(** The schema of the success response: [responses[200].content
    ['application/json'].schema]. *)
Definition response_schema (responses : Json) : option Json :=
  ok ← jget "200" responses;
  content ← jget "content" ok;
  media ← jget "application/json" content;
  jget "schema" media.

Definition image_upload_body : Json :=
  JObj [("content",
         JObj [("multipart/form-data",
                JObj [("schema",
                       JObj [type_of "object";
                             ("properties",
                              JObj [("image",
                                     JObj [type_of "string";
                                           ("format", JStr "binary");
                                           ("description", JStr "Product image file")])])])])])].

Definition login_body : Json :=
  JObj [("required", JBool true);
        ("content",
         json_content
           (JObj [type_of "object";
                  ("required", JArr [JStr "email"; JStr "password"]);
                  ("properties",
                   JObj [("email", JObj [type_of "string"; ("format", JStr "email");
                                         ("example", JStr "user@example.com")]);
                         ("password", JObj [type_of "string"; ("format", JStr "password");
                                            ("example", JStr "password123")])])]))].

Definition determineRequestBody (routePath method tag : string) : option Json :=
  if String.eqb method "get" || String.eqb method "delete" then None
  else
    let singularTag := singular tag in
    if String.eqb tag "Products"
       && (Str.includes "gallery-images" routePath || String.eqb method "post"
           || String.eqb method "put")
    then Some image_upload_body
    else if Str.includes "/login" routePath then Some login_body
    else Some (JObj [("required", JBool true);
                     ("content", json_content (schema_ref singularTag))]).

Definition securedPaths : list string := ["post"; "put"; "delete"].

Definition path_object (tag routePath : string) (route : Route) : Json :=
  let methodName := Str.toLowerCase (r_method route) in
  let operationId := generateOperationId (r_path route) methodName in
  let parameters := extractPathParams (r_path route) in
  let responses := determineResponseSchema (r_path route) methodName tag in
  let requestBody := determineRequestBody (r_path route) methodName tag in
  JObj ([("tags", JArr [JStr tag]);
         ("summary", JStr (Str.toUpperCase methodName +:+ " " +:+ routePath));
         ("description",
          JStr (Str.toUpperCase methodName +:+ " operation for " +:+ routePath));
         ("operationId", JStr operationId);
         ("parameters", JArr parameters);
         ("responses", responses)]
        ++ (if bool_decide (methodName ∈ securedPaths)
            then [("security", JArr [JObj [("bearerAuth", JArr [])]])] else [])
        ++ (match requestBody with
            | Some b => [("requestBody", b)]
            | None => []
            end)).

(** [paths[routePath] = paths[routePath] || {}; paths[routePath][methodName]
    = pathObj] *)
Definition add_route (tag baseUrl : string) (paths : list (string * Json))
    (route : Route) : list (string * Json) :=
  let routePath :=
    baseUrl +:+ (if String.eqb (r_path route) "/" then "" else r_path route) in
  let existing := default (JObj []) (assoc routePath paths) in
  jset routePath
    (jput (Str.toLowerCase (r_method route)) (path_object tag routePath route)
          existing)
    paths.

Definition is_router_file (file : string) : bool :=
  Str.endsWith ".js" file && negb (String.prefix "." file).

(** [routers]: the files of the routers directory, each with the route
    table of the router it exports. *)
Definition generateSwaggerPaths (routers : list (string * list Route))
    : list (string * Json) :=
  fold_left
    (λ paths router,
       fold_left (add_route (generateTag router.1) ("/" +:+ basename_js router.1))
                 router.2 paths)
    (filter (λ router, is_router_file router.1 = true) routers) [].

(** The routers directory of the repository. *)
Definition routers_dir : list (string * list Route) :=
  [("categories.js", Stack.categories); ("orders.js", Stack.orders);
   ("products.js", Stack.products); ("users.js", Stack.users)].

(** Every route of every router, with the file of its router. *)
Definition registered_routes : list (string * Route) :=
  router ← routers_dir; (λ r, (router.1, r)) <$> router.2.

(** The key of a route in the generated paths, and the entry the generated
    paths hold for it: [paths[routePath][methodName]]. *)
Definition route_key (file : string) (route : Route) : string :=
  ("/" +:+ basename_js file)
  +:+ (if String.eqb (r_path route) "/" then "" else r_path route).

Definition generated_entry (paths : list (string * Json)) (file : string)
    (route : Route) : option Json :=
  at_path ← assoc (route_key file route) paths;
  jget (Str.toLowerCase (r_method route)) at_path.
End RouteGenerator.

(** ** utils/swagger-schema-generator.js *)

Module SchemaGenerator.
Import RouteGenerator.

(** An entry of [schemaType.validators]. *)
Record validator := mk_validator {
  v_type : string;
  v_min : option Z;
  v_max : option Z;
  v_enumValues : list string;
}.

(** A Mongoose schema type, with the properties the generator reads:
    [instance], [validators], [regExp] (as [regExp.toString()] prints it),
    [options.ref], [caster] and [schema.obj.type.ref]. *)
Inductive SchemaType :=
  mk_schema_type (instance : string) (validators : list validator)
    (regExp : option string) (options_ref : option string)
    (caster : option SchemaType) (schema_obj_type_ref : option string).

Definition instance (st : SchemaType) : string :=
  match st with mk_schema_type i _ _ _ _ _ => i end.
Definition validators (st : SchemaType) : list validator :=
  match st with mk_schema_type _ v _ _ _ _ => v end.
Definition regExp (st : SchemaType) : option string :=
  match st with mk_schema_type _ _ r _ _ _ => r end.
Definition options_ref (st : SchemaType) : option string :=
  match st with mk_schema_type _ _ _ r _ _ => r end.

Definition typeMap : list (string * Json) :=
  [("String", JObj [type_of "string"]);
   ("Number", JObj [type_of "number"]);
   ("Date", JObj [type_of "string"; ("format", JStr "date-time")]);
   ("Boolean", JObj [type_of "boolean"]);
   ("ObjectID", JObj [type_of "string"]);
   ("Mixed", JObj [type_of "object"]);
   ("Buffer", JObj [type_of "string"; ("format", JStr "binary")]);
   ("Map", JObj [type_of "object"]);
   ("Decimal128", JObj [type_of "number"])].

Fixpoint convert (st : SchemaType) : Json :=
  match st with
  | mk_schema_type inst _ _ _ caster sub_ref =>
      if String.eqb inst "Array" then
        match sub_ref with
        | Some r =>
            JObj [type_of "array";
                  ("items", JObj [type_of "string";
                                  ("description", JStr ("Reference to " +:+ r))])]
        | None =>
            let itemType :=
              match caster with
              | Some c => convert c
              | None => JObj [type_of "string"]
              end in
            JObj [type_of "array"; ("items", itemType)]
        end
      else default (JObj [type_of "string"]) (literal_get inst typeMap)
  end.

Definition convertMongooseTypeToSwagger (schemaType : option SchemaType) : Json :=
  match schemaType with
  | None => JObj [type_of "string"]
  | Some st => convert st
  end.

(** One round of [schemaType.validators.forEach]. *)
Definition apply_validator (fieldInfo : Json) (v : validator) : Json :=
  let f1 := if String.eqb (v_type v) "min"
            then jput "minimum" (jopt JNum (v_min v)) fieldInfo else fieldInfo in
  let f2 := if String.eqb (v_type v) "max"
            then jput "maximum" (jopt JNum (v_max v)) f1 else f1 in
  if String.eqb (v_type v) "enum"
  then jput "enum" (JArr (JStr <$> v_enumValues v)) f2 else f2.

(** [s.slice(1, -1)] *)
Definition slice_1_m1 (s : string) : string :=
  Str.drop_last (match s with String _ r => r | EmptyString => EmptyString end).

(** The last validator of a type, which is the one whose value stays. *)
Fixpoint last_validator (ty : string) (vs : list validator) : option validator :=
  match vs with
  | [] => None
  | v :: rest =>
      match last_validator ty rest with
      | Some v' => Some v'
      | None => if String.eqb (v_type v) ty then Some v else None
      end
  end.

(** The body of the loop over [schema.paths], for one path. *)
Definition field_info (schemaType : SchemaType) : Json :=
  let fieldInfo := convertMongooseTypeToSwagger (Some schemaType) in
  let fieldInfo := fold_left apply_validator (validators schemaType) fieldInfo in
  let fieldInfo :=
    match regExp schemaType with
    | Some re => jput "pattern" (JStr (slice_1_m1 re)) fieldInfo
    | None => fieldInfo
    end in
  match options_ref schemaType with
  | Some r => jput "description" (JStr ("Reference to " +:+ r +:+ " model")) fieldInfo
  | None => fieldInfo
  end.

(** A model: [model.schema.paths] as the list of its keys with their
    schema types, when the model has a schema. *)
Record model := mk_model { schema_paths : option (list (string * SchemaType)) }.

Definition add_path (properties : list (string * Json))
    (entry : string * SchemaType) : list (string * Json) :=
  if String.eqb entry.1 "__v" || String.eqb entry.1 "_id" then properties
  else jset entry.1 (field_info entry.2) properties.

Definition model_properties (paths : list (string * SchemaType))
    : list (string * Json) :=
  fold_left add_path paths
    [("id", JObj [type_of "string"; ("description", JStr "MongoDB ObjectId")])].

Definition extractModelSchema (m : option model) : option Json :=
  match m with
  | None => None
  | Some m =>
      match schema_paths m with
      | None => None
      | Some paths =>
          Some (JObj [type_of "object";
                      ("properties", JObj (model_properties paths))])
      end
  end.

(** [models] stands for [mongoose.models], in the order of its keys. *)
Definition generateSchemasFromModels (models : list (string * model))
    : list (string * Json) :=
  fold_left
    (λ schemas entry,
       match extractModelSchema (Some entry.2) with
       | Some schema => jset entry.1 schema schemas
       | None => schemas
       end)
    models [].

(** *** The schemas of models/*.js as Mongoose compiles them: one path per
    declared field, then [_id] and [__v]; [required], [min], [max] and
    [enum] options become validators. *)
Definition required_v : validator := mk_validator "required" None None [].
Definition plain (inst : string) (vs : list validator) : SchemaType :=
  mk_schema_type inst vs None None None None.
Definition reference (target : string) (vs : list validator) : SchemaType :=
  mk_schema_type "ObjectId" vs None (Some target) None None.
Definition internal_paths : list (string * SchemaType) :=
  [("_id", plain "ObjectId" []); ("__v", plain "Number" [])].

Definition category_model : model :=
  mk_model (Some ([("name", plain "String" [required_v]);
                   ("icon", plain "String" []);
                   ("color", plain "String" []);
                   ("image", plain "String" [])] ++ internal_paths)).

Definition product_model : model :=
  mk_model (Some ([("name", plain "String" [required_v]);
                   ("description", plain "String" [required_v]);
                   ("richDescription", plain "String" []);
                   ("image", plain "String" []);
                   ("images", mk_schema_type "Array" [] None None
                                (Some (plain "String" [])) None);
                   ("brand", plain "String" []);
                   ("price", plain "Number" []);
                   ("category", reference "Category" [required_v]);
                   ("countInStock",
                    plain "Number" [required_v;
                                    mk_validator "min" (Some 0%Z) None [];
                                    mk_validator "max" None (Some 255%Z) []]);
                   ("rating", plain "Number" []);
                   ("isFeatured", plain "Boolean" []);
                   ("dateCreated", plain "Date" [])] ++ internal_paths)).

Definition orderItem_model : model :=
  mk_model (Some ([("quantity", plain "Number" [required_v]);
                   ("product", reference "Product" [required_v])]
                  ++ internal_paths)).

Definition order_model : model :=
  mk_model (Some ([("orderItems", mk_schema_type "Array" [] None None
                                    (Some (reference "OrderItem" [required_v])) None);
                   ("shippingAddress1", plain "String" [required_v]);
                   ("shippingAddress2", plain "String" []);
                   ("city", plain "String" [required_v]);
                   ("zip", plain "String" [required_v]);
                   ("country", plain "String" [required_v]);
                   ("phone", plain "String" [required_v]);
                   ("status",
                    plain "String" [mk_validator "enum" None None Order.status_enum]);
                   ("totalPrice", plain "Number" [required_v]);
                   ("user", reference "User" []);
                   ("dateOrdered", plain "Date" [])] ++ internal_paths)).

(** [mongoose.models] once the model files of src/models are loaded. *)
Definition models_dir : list (string * model) :=
  [("Category", category_model); ("Product", product_model);
   ("OrderItem", orderItem_model); ("Order", order_model)].
End SchemaGenerator.

(** ** swagger.js *)

Module SwaggerDoc.
Import RouteGenerator SchemaGenerator.

Definition described (t description : string) : Json :=
  JObj [type_of t; ("description", JStr description)].

Definition fallback_Product : Json :=
  JObj [type_of "object";
        ("properties",
         JObj [("id", described "string" "Product ID");
               ("name", described "string" "Product name");
               ("description", described "string" "Product description");
               ("price", described "number" "Product price")])].
Definition fallback_Category : Json :=
  JObj [type_of "object";
        ("properties",
         JObj [("id", described "string" "Category ID");
               ("name", described "string" "Category name")])].
Definition fallback_User : Json :=
  JObj [type_of "object";
        ("properties",
         JObj [("id", described "string" "User ID");
               ("name", described "string" "User name");
               ("email", described "string" "User email")])].
Definition fallback_Order : Json :=
  JObj [type_of "object";
        ("properties",
         JObj [("id", described "string" "Order ID");
               ("status", described "string" "Order status");
               ("totalPrice", described "number" "Total order price")])].
Definition fallback_OrderItem : Json :=
  JObj [type_of "object";
        ("properties",
         JObj [("id", described "string" "OrderItem ID");
               ("product", described "string" "Product reference");
               ("quantity", described "number" "Quantity")])].
Definition Error_schema : Json :=
  JObj [type_of "object";
        ("properties",
         JObj [("success", JObj [type_of "boolean"; ("example", JBool false)]);
               ("message", JObj [type_of "string"])])].

(** [modelSchemas.X || fallback] *)
Definition or_fallback (name : string) (fallback : Json)
    (modelSchemas : list (string * Json)) : Json :=
  default fallback (assoc name modelSchemas).

(** [components.schemas]: the spread of [modelSchemas], then the named
    keys in the order the literal lists them. *)
Definition component_schemas (modelSchemas : list (string * Json))
    : list (string * Json) :=
  jset "Error" Error_schema
    (jset "OrderItem" (or_fallback "OrderItem" fallback_OrderItem modelSchemas)
       (jset "Order" (or_fallback "Order" fallback_Order modelSchemas)
          (jset "User" (or_fallback "User" fallback_User modelSchemas)
             (jset "Category" (or_fallback "Category" fallback_Category modelSchemas)
                (jset "Product" (or_fallback "Product" fallback_Product modelSchemas)
                   modelSchemas))))).

Definition error_response (description message : string) : Json :=
  JObj [("description", JStr description);
        ("content",
         JObj [("application/json",
                JObj [("schema", schema_ref "Error");
                      ("example", JObj [("success", JBool false);
                                        ("message", JStr message)])])])].

Definition tag_entry (name description : string) : Json :=
  JObj [("name", JStr name); ("description", JStr description)].

(** [api_url] is [process.env.API_URL]. *)
Definition swaggerDefinition (api_url : option string)
    (modelSchemas generatedPaths : list (string * Json)) : Json :=
  JObj
    [("openapi", JStr "3.0.0");
     ("info",
      JObj [("title", JStr "E-Shop API Documentation");
            ("version", JStr "1.0.0");
            ("description",
             JStr "RESTful API for E-Shop built with Node.js, Express, and MongoDB");
            ("license", JObj [("name", JStr "ISC");
                              ("url", JStr "https://opensource.org/licenses/ISC")]);
            ("contact", JObj [("name", JStr "API Support");
                              ("url", JStr "https://e-shop-api.example.com");
                              ("email", JStr "support@example.com")])]);
     ("servers",
      JArr [JObj [("url", JStr ("http://localhost:3000" +:+
                                 match api_url with
                                 | Some u => if String.eqb u "" then "/api/v1" else u
                                 | None => "/api/v1"
                                 end));
                  ("description", JStr "Development server")]]);
     ("tags",
      JArr [tag_entry "Users" "User management and authentication";
            tag_entry "Products" "Product catalog operations";
            tag_entry "Categories" "Product category management";
            tag_entry "Orders" "Order processing and management"]);
     ("components",
      JObj [("securitySchemes",
             JObj [("bearerAuth", JObj [type_of "http"; ("scheme", JStr "bearer");
                                        ("bearerFormat", JStr "JWT")])]);
            ("schemas", JObj (component_schemas modelSchemas));
            ("responses",
             JObj [("UnauthorizedError",
                    error_response "Access token is missing or invalid" "Unauthorized");
                   ("NotFoundError",
                    error_response "Resource not found" "Resource not found");
                   ("ServerError",
                    error_response "Internal server error" "Server error")])]);
     ("paths", JObj generatedPaths);
     ("security", JArr [JObj [("bearerAuth", JArr [])]])].

(** The definition the module builds when it is loaded, from the models
    and the routers it finds; this is the object handed to swagger-jsdoc,
    which adds the paths annotated in the routers' comments. *)
Definition document (api_url : option string) (models : list (string * model))
    (routers : list (string * list Route)) : Json :=
  swaggerDefinition api_url (generateSchemasFromModels models)
    (generateSwaggerPaths routers).

(** [definition.components.schemas[name]] *)
Definition schema_of (doc : Json) (name : string) : option Json :=
  components ← jget "components" doc;
  schemas ← jget "schemas" components;
  jget name schemas.

(** [schema.properties[field]] *)
Definition property_of (schema : Json) (field : string) : option Json :=
  properties ← jget "properties" schema;
  jget field properties.
End SwaggerDoc.

(** ** The endpoints and quantities the properties below range over *)

(** The three routers whose GET /:id handlers are compared. *)
Inductive resource := AProduct | AnOrder | ACategory.

Definition get_by_id (k : resource) (raw : RawId) : M unit :=
  match k with
  | AProduct => Products.get_by_id raw
  | AnOrder => Orders.get_by_id raw
  | ACategory => Categories.get_by_id raw
  end.

(** The identifier is that of a stored document; one that does not cast is
    the identifier of none. *)
Definition stored (k : resource) (d : Store) (raw : RawId) : bool :=
  match raw with
  | Casts id =>
      match k with
      | AProduct => bool_decide (is_Some (products d !! id))
      | AnOrder => bool_decide (is_Some (orders d !! id))
      | ACategory => bool_decide (is_Some (categories d !! id))
      end
  | NoCast _ => false
  end.

(** The three routers with a GET /get/count handler. *)
Inductive counted := CountProducts | CountUsers | CountOrders.

Definition get_count (k : counted) : M unit :=
  match k with
  | CountProducts => Products.get_count
  | CountUsers => Users.get_count
  | CountOrders => Orders.get_count
  end.

Definition countDocuments (k : counted) (d : Store) : nat :=
  match k with
  | CountProducts => size (products d)
  | CountUsers => size (users d)
  | CountOrders => size (orders d)
  end.

Definition not_found_message (k : counted) : string :=
  match k with
  | CountProducts => "Products not found"
  | CountUsers => "Users not found"
  | CountOrders => "Orders not found"
  end.

(** The total in the arithmetic of JavaScript numbers: for each submitted
    line item the price the referenced product has in the database the
    request meets, times the quantity, each product rounded to a double;
    the products are added from the left, starting from 0, each sum rounded
    to a double. *)
Definition line_total (d : Store) (it : OrderItem.input) : option float :=
  q ← OrderItem.i_quantity it;
  pid ← OrderItem.i_product it ≫= cast_oid;
  p ← products d !! pid;
  Some (Product.price p * q)%float.

Fixpoint total_from (d : Store) (acc : float) (items : list OrderItem.input)
    : option float :=
  match items with
  | [] => Some acc
  | it :: rest =>
      t ← line_total d it;
      total_from d (acc + t)%float rest
  end.

Definition order_total (d : Store) (items : list OrderItem.input) : option float :=
  total_from d 0%float items.

(** The rational number a finite double stands for. *)
Definition exact (x : float) : option Q :=
  match Prim2SF x with
  | S754_zero _ => Some 0%Q
  | S754_finite s m e =>
      Some (Qred ((if s then -1 else 1) * inject_Z (Z.pos m) * 2 ^ e)%Q)
  | S754_infinity _ | S754_nan => None
  end.

(** The total as the specification words it: the sum, over the submitted
    line items, of the quantity times the price of the referenced product,
    in exact arithmetic. *)
Definition exact_line_total (d : Store) (it : OrderItem.input) : option Q :=
  q ← OrderItem.i_quantity it ≫= exact;
  pid ← OrderItem.i_product it ≫= cast_oid;
  p ← products d !! pid;
  price ← exact (Product.price p);
  Some (q * price)%Q.

Fixpoint exact_order_total (d : Store) (items : list OrderItem.input) : option Q :=
  match items with
  | [] => Some 0%Q
  | it :: rest =>
      t ← exact_line_total d it;
      ts ← exact_order_total d rest;
      Some (t + ts)%Q
  end.

Definition references_existing_product (d : Store) (it : OrderItem.input) : Prop :=
  ∃ pid : ObjectId,
    OrderItem.i_product it = Some (Casts pid) ∧ is_Some (products d !! pid).

Definition references_missing_product (d : Store) (it : OrderItem.input) : Prop :=
  ∃ pid : ObjectId,
    OrderItem.i_product it = Some (Casts pid) ∧ products d !! pid = None.

(** The item passes orderItemSchema. *)
Definition item_valid (it : OrderItem.input) : Prop :=
  is_Some (OrderItem.i_quantity it ≫= cast_number)
  ∧ is_Some (OrderItem.i_product it ≫= cast_oid).

(** The fields of the body that orderSchema checks on [save()]. *)
Definition order_fields_valid (body : Orders.post_body) : bool :=
  bool_decide (is_Some (required_string (Orders.b_shippingAddress1 body)))
  && bool_decide (is_Some (required_string (Orders.b_city body)))
  && bool_decide (is_Some (required_string (Orders.b_zip body)))
  && bool_decide (is_Some (required_string (Orders.b_country body)))
  && bool_decide (is_Some (required_string (Orders.b_phone body)))
  && bool_decide (is_Some (Order.cast_user (Orders.b_user body)))
  && Order.in_enum (default "Pending" (Orders.b_status body)).

(** An order the request added to the collection. *)
Definition created (d : Store) (r : Completion unit * HState) (id : ObjectId)
    (o : Order.t) : Prop :=
  orders d !! id = None ∧ orders (db r.2) !! id = Some o.

(** The invariant of orderSchema's [enum] on the stored orders. *)
Definition status_invariant (d : Store) : Prop :=
  ∀ id o, orders d !! id = Some o → Order.in_enum (Order.status o) = true.

(** The item [id] holds in [m] what the request submitted as [it]. *)
Definition holds (m : gmap N OrderItem.t) (id : ObjectId) (it : OrderItem.input) : Prop :=
  ∃ q p, it = OrderItem.mk_input (Some q) (Some (Casts p))
         ∧ m !! id = Some (OrderItem.mk q p).

(** The identifiers under which the saves that succeeded stored their items. *)
Definition saved_ids (cs : list (Completion ObjectId)) : list ObjectId :=
  omap (λ c, match c with Normal id => Some id | Thrown _ => None end) cs.

(** The outcome [c] of saving the submitted item [it]: an item that passes
    orderItemSchema is stored under an identifier that was unused, an item
    that does not is refused with the validation error. *)
Definition save_outcome (before after : gmap N OrderItem.t) (it : OrderItem.input)
    (c : Completion ObjectId) : Prop :=
  match OrderItem.validate it with
  | inr oi => ∃ id, c = Normal id ∧ before !! id = None ∧ after !! id = Some oi
  | inl e => c = Thrown e
  end.

(** The error of reading [price] on a product that was not found. *)
Definition null_price : JsError.t :=
  JsError.TypeError "Cannot read properties of null (reading 'price')".

(** What [line_price] yields for an item the request submitted. *)
Definition priced (d : Store) (it : OrderItem.input) : Completion float :=
  match line_total d it with
  | Some t => Normal t
  | None => Thrown null_price
  end.

(** The handler's three ways to end once the items have been saved: a
    price cannot be read; the order does not pass its schema (a field is
    not valid, or the total is NaN); the order is saved. *)
Inductive ending (d : Store) (body : Orders.post_body) (ids : list ObjectId)
    (r : Completion unit * HState) : Prop :=
  | price_failed :
      order_total d (Orders.b_orderItems body) = None →
      r.1 = Thrown null_price → wire r = None →
      orders (db r.2) = orders d →
      issued r.2 = Insert COrderItem <$> ids →
      ending d body ids r
  | save_failed (t : float) :
      order_total d (Orders.b_orderItems body) = Some t →
      order_fields_valid body = false ∨ cast_number t = None →
      r.1 = Normal tt →
      wire r = Some (mkResponse 500
                       (inl (JObj [("error", JStr "Order validation failed");
                                   ("success", JBool false)]))) →
      orders (db r.2) = orders d →
      issued r.2 = Insert COrderItem <$> ids →
      ending d body ids r
  | order_saved (t : float) (o : Order.t) :
      order_total d (Orders.b_orderItems body) = Some t →
      order_fields_valid body = true →
      cast_number t = Some t →
      r.1 = Normal tt →
      Order.totalPrice o = t →
      Order.orderItems o = ids →
      Order.status o = default "Pending" (Orders.b_status body) →
      orders (db r.2) = <[fresh (dom (orders d)) := o]> (orders d) →
      wire r = Some (mkResponse 201
                       (inl (Orders.plain_json (fresh (dom (orders d))) o))) →
      issued r.2 = (Insert COrderItem <$> ids)
                   ++ [Insert COrder (fresh (dom (orders d)))] →
      ending d body ids r.

(** Sample data: a catalogue of two products, two requests for an order on
    it, and a database with one order. *)
Definition sample_catalog : Store :=
  mkStore {[1%N := Category.mk "Kitchen" None None None]}
          (<[2%N := Product.mk "Teapot" "Cast iron" "" "" [] "" 7%float 1%N 10 0 false 0]>
             {[1%N := Product.mk "Kettle" "1.7 l" "" "" [] "" 5%float 1%N 10 0 false 0]})
          ∅ ∅ ∅.

Definition sample_body : Orders.post_body :=
  Orders.mk_post_body
    [OrderItem.mk_input (Some 2%float) (Some (Casts 1%N));
     OrderItem.mk_input (Some 3%float) (Some (Casts 2%N))]
    (Some "1 Main St") None (Some "Springfield") (Some "12345") (Some "US")
    (Some "555-0100") None None None.

Definition sample_body_missing_product : Orders.post_body :=
  Orders.mk_post_body
    [OrderItem.mk_input (Some 2%float) (Some (Casts 1%N));
     OrderItem.mk_input (Some 3%float) (Some (Casts 9%N))]
    (Some "1 Main St") None (Some "Springfield") (Some "12345") (Some "US")
    (Some "555-0100") None None None.

(** A catalogue whose one product is priced at the largest integer below
    2^53, and an order for three of it. *)
Definition large_catalog : Store :=
  mkStore {[1%N := Category.mk "Bullion" None None None]}
          {[1%N := Product.mk "Ingot" "Gold" "" "" [] "" 9007199254740991%float
                     1%N 1 0 false 0]}
          ∅ ∅ ∅.

Definition large_body : Orders.post_body :=
  Orders.mk_post_body
    [OrderItem.mk_input (Some 3%float) (Some (Casts 1%N))]
    (Some "1 Main St") None (Some "Springfield") (Some "12345") (Some "US")
    (Some "555-0100") None None None.

Definition sample_order : Order.t :=
  Order.mk [] "1 Main St" "" "Springfield" "12345" "US" "555-0100" "Pending"
    0%float None 0.

Definition sample_db : Store := mkStore ∅ ∅ ∅ {[1%N := sample_order]} ∅.


(** The paths Mongoose adds itself, which the schema generator skips. *)
Definition internal_path (field : string) : Prop := field = "__v" ∨ field = "_id".

(** [doc.components.schemas[name].properties[field]] *)
Definition documented_field (doc : Json) (name field : string) : option Json :=
  schema ← SwaggerDoc.schema_of doc name;
  SwaggerDoc.property_of schema field.

(** [doc.paths[routePath][methodName]] for a route of the router in [file]. *)
Definition documented_route (doc : Json) (file : string) (route : Route) : option Json :=
  paths ← jget "paths" doc;
  at_path ← jget (RouteGenerator.route_key file route) paths;
  jget (Str.toLowerCase (r_method route)) at_path.

(** ** Path templates, segment by segment *)

(** A route path as the routers write it: a literal segment, or a parameter
    [:name]. *)
Inductive segment :=
  | Lit (text : string)
  | Par (name : string).

Fixpoint has_char (c : ascii) (s : string) : bool :=
  match s with
  | EmptyString => false
  | String a rest => Ascii.eqb a c || has_char c rest
  end.

(** A literal holds no colon and no slash; a parameter name is not empty and
    holds no slash. *)
Definition segment_ok (seg : segment) : Prop :=
  match seg with
  | Lit text => has_char ":" text = false ∧ has_char "/" text = false
  | Par name => name ≠ "" ∧ has_char "/" name = false
  end.

Definition render_segment (seg : segment) : string :=
  match seg with
  | Lit text => "/" +:+ text
  | Par name => "/:" +:+ name
  end.

Fixpoint render_path (segs : list segment) : string :=
  match segs with
  | [] => ""
  | seg :: rest => render_segment seg +:+ render_path rest
  end.

Definition parameter_names (segs : list segment) : list string :=
  omap (λ seg, match seg with Par n => Some n | Lit _ => None end) segs.

(** ** The generated paths, route by route *)



(** Two routes that the generator writes to the same place: the same key in
    the paths and the same method. *)
Definition same_operation (fr fr' : string * Route) : Prop :=
  RouteGenerator.route_key fr.1 fr.2 = RouteGenerator.route_key fr'.1 fr'.2
  ∧ Str.toLowerCase (r_method fr.2) = Str.toLowerCase (r_method fr'.2).

#[global] Instance same_operation_dec (fr fr' : string * Route) :
  Decision (same_operation fr fr').
Proof. unfold same_operation. apply _. Defined.


(** ** The middleware stack as a decision table *)

Module Table.
Import Jwt App.

(** express.static serves a GET or HEAD under its mount path for a file
    that exists. *)
Definition static_hit (files : list string) (req : request) : bool :=
  (String.eqb (method req) "GET" || String.eqb (method req) "HEAD")
  && bool_decide (is_Some (strip_mount (Str.segments "/public/uploads")
                             (Str.segments (path req))))
  && bool_decide (path req ∈ files).

(** The first route of a router that takes the request. *)
Definition routed_by (mount : string) (stack : list Route) (req : request)
    : option Route :=
  sub ← strip_mount (Str.segments mount) (Str.segments (path req));
  find (route_matches (method req) sub) stack.

(** The first router, in mounting order, that takes the request. *)
Definition routed (api : string) (req : request) : option (string * Route) :=
  match routed_by (api +:+ "/products") Stack.products req with
  | Some r => Some ("products", r)
  | None =>
      match routed_by (api +:+ "/categories") Stack.categories req with
      | Some r => Some ("categories", r)
      | None =>
          match routed_by (api +:+ "/orders") Stack.orders req with
          | Some r => Some ("orders", r)
          | None =>
              match routed_by (api +:+ "/users") Stack.users req with
              | Some r => Some ("users", r)
              | None => None
              end
          end
      end
  end.

Definition docs_path (req : request) : bool :=
  bool_decide (is_Some (strip_mount (Str.segments "/api-docs")
                          (Str.segments (path req)))).

(** What becomes of a request, read as a table. *)
Definition decide_request (api : string) (files : list string) (req : request)
    : outcome :=
  if String.eqb (method req) "OPTIONS" then Preflight
  else if static_hit files req then ServedFile
  else
    match routed api req with
    | Some (name, r) => Handler name r NotRun
    | None =>
        match authJwt api req with
        | Rejected e => ErrorResponse (ErrorHandler.respond e)
        | Skipped => if docs_path req then ServedDocs Bypassed else Unhandled None
        | Verified _ => if docs_path req then ServedDocs Passed else Unhandled None
        end
    end.
End Table.

(** ** routers/products.js: the disk storage of the uploads *)

Module Storage.
(** What multer knows of an uploaded file when it names it.  The
    mimetype is a media type, [type/subtype]; a text that names an
    inherited property of an object is none. *)
Record upload := mk_upload {
  originalname : string;
  media_type : string;
  media_subtype : string;
}.

Definition mimetype (file : upload) : string :=
  media_type file +:+ "/" +:+ media_subtype file.

Definition FILE_TYPE_MAP : list (string * string) :=
  [("image/png", "png"); ("image/jpeg", "jpg"); ("image/jpg", "jpg");
   ("image/gif", "gif"); ("image/webp", "webp"); ("image/svg+xml", "svg")].

(** [FILE_TYPE_MAP[key]] *)
Definition file_type (key : string) : option string :=
  snd <$> find (λ kv, String.eqb kv.1 key) FILE_TYPE_MAP.

(** The [filename] function of the disk storage; [now] is [Date.now()].
    What it hands to [cb] is the error or the name. *)
Definition filename (file : upload) (now : N) : JsError.t + string :=
  let fileName := default "" (head (Str.split "." (originalname file))) in
  match file_type (mimetype file) with
  | None => inl (JsError.mk "Error" "Invalid image type" None)
  | Some fileExtension =>
      inr (fileName +:+ "-" +:+ pretty now +:+ "." +:+ fileExtension)
  end.
End Storage.

(** ** routers/products.js: the route POST / with its upload stage *)

Module ProductsRoute.
Import Storage.

(** A file part of a multipart request, under the field name it was sent
    with. *)
Record part := mk_part { fieldname : string; content : upload }.

Definition MulterError (code message : string) : JsError.t :=
  JsError.mk "MulterError" message (Some (CodeStr code)).

(** [uploadOptions.single(field)] on the file parts of the request, in the
    order they arrive: one file under [field] is accepted and named by the
    storage, which refuses a type it does not know; a part under another
    field name, and a second part under [field], end the upload with
    LIMIT_UNEXPECTED_FILE.  The first error is the one handed on; without
    an error, [req.file] is handed on. *)
Fixpoint single (field : string) (filesLeft : bool) (parts : list part)
    (now : N) (file : option Products.file) : JsError.t + option Products.file :=
  match parts with
  | [] => inr file
  | p :: rest =>
      if String.eqb (fieldname p) field && filesLeft then
        match filename (content p) now with
        | inl err => inl err
        | inr name => single field false rest now (Some (Products.mk_file name))
        end
      else inl (MulterError "LIMIT_UNEXPECTED_FILE" "Unexpected field")
  end.

(** The request as it reaches the route: its file parts, its body fields,
    [req.protocol] and the Host header. *)
Record upload_request := mk_upload_request {
  q_parts : list part;
  q_body : Product.input;
  q_protocol : string;
  q_host : string;
}.

(** router.post(`/`, uploadOptions.single("image"), handler): the upload
    stage passes its error to [next], which takes it past the remaining
    routers and the gate to the error handler of app.js; without an error
    the handler runs with [req.file].  [uploaded_at] is [Date.now()] when
    the file is named. *)
Definition post (req : upload_request) (uploaded_at : N) (now : Z) : M unit :=
  match single "image" true (q_parts req) uploaded_at None with
  | inl err => ErrorHandler.errorHandler err
  | inr file =>
      Products.post
        (Products.mk_post_req (q_body req) file (q_protocol req) (q_host req))
        now
  end.

End ProductsRoute.

(** * Properties *)

(** ** The handler monad *)

Lemma bind_run {A B} (m : M A) (f : A → M B) (s : HState) :
  (m ≫= f) s =
  match m s with
  | (Normal a, s') => f a s'
  | (Thrown e, s') => (Thrown e, s')
  end.
Proof. reflexivity. Qed.

(** Unfolds the operations of the handler monad. *)
Module MonadTactics.
Ltac msimpl :=
  cbv beta iota zeta delta
    [mbind M_bind mret M_ret get_db modify_db issue res_status res_json
     res_send res_send_text res_write throw catch settle cast_id];
  cbn [db res issued sent statusCode refused fst snd].
End MonadTactics.

(** ** Error translation *)

Module ErrorHandlerProps.
Import JsError ErrorHandler.
Local Open Scope Z_scope.

Ltac split_name n :=
  repeat match goal with
         | |- context [String.eqb n ?s] =>
             destruct (String.eqb_spec n s); [subst n |]
         end.

(** C3, as amended: the middleware answers 401 exactly for the three
    authentication error names, 404 exactly for NotFoundError, 400 (with a
    message) exactly for validation, cast, duplicate-key and parse errors
    and for MulterError, RangeError, TypeError and ReferenceError, and 500
    for every other error. *)
Theorem C3_error_translation (err : JsError.t) :
  (status_of err = Some 401 ↔ is_authentication_failure err)
  ∧ (status_of err = Some 404 ↔ is_not_found err)
  ∧ (status_of err = Some 400 ↔
       is_validation_cast_duplicate_or_parse err ∨ is_other_client_error err)
  ∧ (status_of err = Some 400 →
       ∃ r m, respond err = Some r ∧ (body r = inl m) ∧ is_Some (jget "message" m))
  ∧ (status_of err = Some 500 ↔
       ¬ is_authentication_failure err ∧ ¬ is_not_found err
       ∧ ¬ is_validation_cast_duplicate_or_parse err
       ∧ ¬ is_other_client_error err).
Proof.
  destruct err as [n m c].
  unfold status_of, respond, errorHandler, is_authentication_failure,
    is_not_found, is_validation_cast_duplicate_or_parse, is_other_client_error.
  cbn [name code message].
  split_name n; cbn.
  all: try (case_bool_decide; cbn).
  all: repeat split; intros; try discriminate; try congruence; eauto.
  all: try (intuition (try discriminate; congruence)).
Qed.

(** C3, as the specification states it, fails: a TypeError is none of the
    listed categories, yet it is answered with 400, not 500. *)
Lemma C3_counterexample :
  status_of (JsError.TypeError "x is not a function") = Some 400
  ∧ ¬ is_validation_cast_duplicate_or_parse (JsError.TypeError "x is not a function")
  ∧ ¬ is_authentication_failure (JsError.TypeError "x is not a function")
  ∧ ¬ is_not_found (JsError.TypeError "x is not a function")
  ∧ status_of (JsError.TypeError "x is not a function") ≠ Some 500.
Proof.
  unfold is_validation_cast_duplicate_or_parse, is_authentication_failure,
    is_not_found.
  cbn. repeat split; try discriminate; intuition discriminate.
Qed.
End ErrorHandlerProps.

(** ** Lookups by identifier and counts *)

Module LookupProps.
Import MonadTactics.
Local Open Scope Z_scope.

Lemma stored_false_product d (id : ObjectId) :
  stored AProduct d id = false → products d !! id = None.
Proof.
  unfold stored. intros H. apply bool_decide_eq_false in H.
  by apply eq_None_not_Some.
Qed.

Lemma stored_false_order d (id : ObjectId) :
  stored AnOrder d id = false → orders d !! id = None.
Proof.
  unfold stored. intros H. apply bool_decide_eq_false in H.
  by apply eq_None_not_Some.
Qed.

Lemma stored_false_category d (id : ObjectId) :
  stored ACategory d id = false → categories d !! id = None.
Proof.
  unfold stored. intros H. apply bool_decide_eq_false in H.
  by apply eq_None_not_Some.
Qed.

(** C4, as amended: a GET by an identifier that casts to an ObjectId and
    matches no stored document is answered 404, on products, orders and
    categories.  An identifier that does not cast matches no document
    either, and is not answered 404: the categories handler answers 500
    with the message of the cast error, and the products and orders
    handlers reject with the cast error, having sent nothing. *)
Theorem C4_get_by_missing_identifier (k : resource) (d : Store) (raw : RawId) :
  stored k d raw = false →
  match raw with
  | Casts id => wire_status (run (get_by_id k id) d) = Some 404
  | NoCast v =>
      match k with
      | ACategory =>
          wire (run (get_by_id k raw) d)
          = Some (mkResponse 500
                    (inl (JObj [("success", JBool false);
                                ("error",
                                 JStr (JsError.message
                                         (JsError.CastError v "Category")))])))
      | AProduct =>
          run (get_by_id k raw) d
          = (Thrown (JsError.CastError v "Product"), mkH d fresh_res [])
      | AnOrder =>
          run (get_by_id k raw) d
          = (Thrown (JsError.CastError v "Order"), mkH d fresh_res [])
      end
  end.
Proof.
  intros H. destruct raw as [id | v].
  - destruct k; cbn [get_by_id].
    + apply stored_false_product in H.
      unfold run, Products.get_by_id, wire_status, wire. msimpl. cbn.
      rewrite H. reflexivity.
    + apply stored_false_order in H.
      unfold run, Orders.get_by_id, wire_status, wire. msimpl. cbn.
      rewrite H. reflexivity.
    + apply stored_false_category in H.
      unfold run, Categories.get_by_id, wire_status, wire. msimpl. cbn.
      rewrite H. reflexivity.
  - destruct k; reflexivity.
Qed.

Lemma C4_get_by_missing_identifier_witness :
  stored AProduct (mkStore ∅ ∅ ∅ ∅ ∅) 7%N = false
  ∧ wire_status (run (get_by_id AProduct 7%N) (mkStore ∅ ∅ ∅ ∅ ∅)) = Some 404.
Proof.
  split; [reflexivity |].
  apply (C4_get_by_missing_identifier AProduct (mkStore ∅ ∅ ∅ ∅ ∅) (Casts 7%N)).
  reflexivity.
Defined.

(** C4, as the specification states it, fails: an identifier that does not
    cast matches no stored category, and GET /categories/:id answers it
    with 500; the same identifier on products gets no response from the
    handler. *)
Lemma C4_counterexample :
  stored ACategory sample_catalog (NoCast "abc") = false
  ∧ wire_status (run (get_by_id ACategory (NoCast "abc")) sample_catalog)
    = Some 500
  ∧ wire_status (run (get_by_id ACategory (NoCast "abc")) sample_catalog)
    ≠ Some 404
  ∧ stored AProduct sample_catalog (NoCast "abc") = false
  ∧ wire_status (run (get_by_id AProduct (NoCast "abc")) sample_catalog)
    = None.
Proof. repeat split; try reflexivity. discriminate. Qed.

(** In products and orders the not-found branch falls through to
    [res.send], which throws; the 404 is already out. *)
Lemma get_missing_product_then_throws d (id : ObjectId) :
  products d !! id = None →
  (run (Products.get_by_id id) d).1 = Thrown JsError.HeadersSent
  ∧ refused (res (run (Products.get_by_id id) d).2) = [mkResponse 404 (inl JNull)].
Proof.
  intros H. unfold run, Products.get_by_id. msimpl. cbn.
  rewrite H. split; reflexivity.
Qed.

(** C9: when the collection is empty, each count endpoint sends a 500
    response with its 'not found' message, and then tries to send
    [{count: 0}], which is refused; the zero is not reported with a
    success status. *)
Theorem C9_count_of_empty_collection (k : counted) (d : Store) :
  countDocuments k d = 0%nat →
  let r := run (get_count k) d in
  wire r = Some (mkResponse 500
                   (inl (JObj [("success", JBool false);
                               ("message", JStr (not_found_message k))])))
  ∧ refused (res r.2) = [mkResponse 500 (inl (JObj [("count", JNum 0)]))]
  ∧ r.1 = Thrown JsError.HeadersSent.
Proof.
  intros H. destruct k; cbn [get_count countDocuments not_found_message] in *.
  - unfold run, Products.get_count, wire. rewrite bind_run. cbn.
    rewrite H. cbn. repeat split; reflexivity.
  - unfold run, Users.get_count, wire. rewrite bind_run. cbn.
    rewrite H. cbn. repeat split; reflexivity.
  - unfold run, Orders.get_count, wire. rewrite bind_run. cbn.
    rewrite H. cbn. repeat split; reflexivity.
Qed.

Lemma C9_count_of_empty_collection_witness :
  countDocuments CountUsers (mkStore ∅ ∅ ∅ ∅ ∅) = 0%nat
  ∧ wire (run (get_count CountUsers) (mkStore ∅ ∅ ∅ ∅ ∅))
    = Some (mkResponse 500
              (inl (JObj [("success", JBool false);
                          ("message", JStr "Users not found")]))).
Proof.
  split; [reflexivity |].
  apply (C9_count_of_empty_collection CountUsers (mkStore ∅ ∅ ∅ ∅ ∅)).
  reflexivity.
Defined.

(** A collection that is not empty is counted with status 200. *)
Lemma count_of_nonempty_collection (k : counted) (d : Store) :
  countDocuments k d ≠ 0%nat →
  wire (run (get_count k) d)
  = Some (mkResponse 200
            (inl (JObj [("count", JNum (Z.of_nat (countDocuments k d)))]))).
Proof.
  intros H.
  assert ((Z.of_nat (countDocuments k d) =? 0) = false) as E
    by (apply Z.eqb_neq; lia).
  destruct k; cbn [get_count countDocuments] in *.
  - unfold run, Products.get_count, wire. rewrite bind_run. cbn.
    rewrite E. reflexivity.
  - unfold run, Users.get_count, wire. rewrite bind_run. cbn.
    rewrite E. reflexivity.
  - unfold run, Orders.get_count, wire. rewrite bind_run. cbn.
    rewrite E. reflexivity.
Qed.






End LookupProps.

(** ** The authentication gate and the middleware stack *)

Module GateProps.
Import Jwt App.
Local Open Scope Z_scope.

(** The middleware taken alone: an allow-listed request is passed on with
    no check; any other request is passed on exactly when its token is
    acceptable, and is otherwise rejected with an UnauthorizedError. *)
Lemma authJwt_gate (api : string) (req : request) :
  match authJwt api req with
  | Skipped => allow_listed api req = true
  | Verified t =>
      allow_listed api req = false ∧ bearer req = Some t ∧ acceptable t = true
  | Rejected e =>
      allow_listed api req = false
      ∧ JsError.name e = "UnauthorizedError"
      ∧ (∀ t, bearer req = Some t → acceptable t = false)
  end.
Proof.
  unfold authJwt, acceptable, isRevoked.
  destruct (allow_listed api req); [done |].
  destruct (bearer req) as [[sv ex ad] |]; cbn.
  - destruct sv, ex, ad; cbn; repeat split; try done;
      intros t [= <-]; reflexivity.
  - repeat split; intros t [=].
Qed.

(** What the gate rejects, the error handler answers with 401. *)
Lemma rejected_is_401 (api : string) (req : request) (e : JsError.t) :
  authJwt api req = Rejected e →
  status <$> ErrorHandler.respond e = Some 401.
Proof.
  intros H. pose proof (authJwt_gate api req) as G. rewrite H in G.
  destruct G as (_ & Hn & _). destruct e as [n m c]. cbn in Hn. subst n.
  reflexivity.
Qed.

(** A request that no router matches does meet the gate: without a token
    it gets 401. *)
Example unrouted_request_is_401 :
  handle "/api/v1" [] (mk_request "GET" "/api/v1/reports" None)
  = ErrorResponse (Some (mkResponse 401 (inl (JObj [("message", JStr "Unauthorized")])))).
Proof. vm_compute. reflexivity. Qed.

(** With the gate mounted before the routers, the same DELETE without a
    token is answered with 401. *)
Example gate_first_rejects_delete (files : list string) :
  dispatch "/api/v1" files (gate_first "/api/v1")
    (mk_request "DELETE" "/api/v1/products/507f1f77bcf86cd799439011" None)
    None NotRun
  = ErrorResponse (Some (mkResponse 401 (inl (JObj [("message", JStr "Unauthorized")])))).
Proof. vm_compute. reflexivity. Qed.

(** Layers none of which is a router never end in a handler. *)
Lemma no_handler_without_router api files layers req err gate name r g :
  (∀ l, l ∈ layers → match l with Router _ _ _ => False | _ => True end) →
  dispatch api files layers req err gate ≠ Handler name r g.
Proof.
  revert err gate. induction layers as [|l rest IH]; intros err gate Hno; [done |].
  assert (∀ e g', dispatch api files rest req e g' ≠ Handler name r g) as IH'.
  { intros e g'. apply IH. intros l' Hl'. apply Hno. by right. }
  specialize (Hno l (ltac:(left))).
  cbn. destruct err; destruct l; try done; try apply IH';
    repeat case_match; try done; apply IH'.
Qed.

(** When every router is mounted before the gate, a handler is only ever
    reached with the gate in the state the request came in with. *)
Lemma routers_before_gate api files (pre post : list layer) req err gate name r g :
  AuthJwt ∉ pre →
  (∀ l, l ∈ post → match l with Router _ _ _ => False | _ => True end) →
  dispatch api files (pre ++ AuthJwt :: post) req err gate = Handler name r g →
  g = gate.
Proof.
  intros Hpre Hpost. revert err gate Hpre.
  induction pre as [|l rest IH]; intros err gate Hpre.
  - cbn. destruct err; [| destruct (authJwt api req)];
      intros H; by apply no_handler_without_router in H.
  - assert (AuthJwt ∉ rest) as Hrest by (intros H; apply Hpre; by right).
    assert (l ≠ AuthJwt) as Hl by (intros ->; apply Hpre; left).
    cbn. destruct err; destruct l; try done; try (by apply IH);
      repeat case_match; try done; try (by apply IH).
    by intros [= _ _ ->].
Qed.

(** In app.js no handler is guarded: whatever the request, a handler that
    is reached is reached with the gate not run. *)
Lemma no_handler_is_guarded api files req name r g :
  handle api files req = Handler name r g → g = NotRun.
Proof.
  unfold handle, app.
  apply (routers_before_gate api files
           [Cors; PassOn "express.json"; PassOn "morgan"; Static "/public/uploads";
            Router (api +:+ "/products") "products" Stack.products;
            Router (api +:+ "/categories") "categories" Stack.categories;
            Router (api +:+ "/orders") "orders" Stack.orders;
            Router (api +:+ "/users") "users" Stack.users]
           [ErrorHandlerLayer; Docs "/api-docs"]).
  - intros H. repeat (apply elem_of_cons in H as [H|H]; [discriminate |]).
    by apply elem_of_nil in H.
  - intros l H. repeat (apply elem_of_cons in H as [->|H]; [done |]).
    by apply elem_of_nil in H.
Qed.

(** C2 fails on app.js: the routers are mounted before the gate, so a
    DELETE on a product that carries no token is not on the allow-list
    and still reaches the products router's DELETE /:id handler, the gate
    never having run. *)
Theorem C2_unauthenticated_delete_reaches_handler (files : list string) :
  let req := mk_request "DELETE" "/api/v1/products/507f1f77bcf86cd799439011" None in
  allow_listed "/api/v1" req = false
  ∧ handle "/api/v1" files req
    = Handler "products" (mkRoute "delete" "/:id") NotRun.
Proof. split; vm_compute; reflexivity. Qed.

(** Every route of the four routers is reached with the gate not run,
    whatever the request carries: here, the order-creation route. *)
Example post_order_reaches_handler (files : list string) :
  handle "/api/v1" files (mk_request "POST" "/api/v1/orders" None)
  = Handler "orders" (mkRoute "post" "/") NotRun.
Proof. vm_compute. reflexivity. Qed.

(** The registration route is POST on the users root; the allow-list names
    another path. *)
Example registration_not_allow_listed :
  allow_listed "/api/v1" (mk_request "POST" "/api/v1/users" None) = false.
Proof. vm_compute. reflexivity. Qed.
End GateProps.

(** ** Orders *)

Module OrderProps.
Import Orders MonadTactics.
Local Open Scope Z_scope.

Lemma cast_number_Some (x y : float) :
  cast_number x = Some y → y = x ∧ cast_number x = Some x.
Proof.
  unfold cast_number. destruct (PrimFloat.is_nan x); [done |].
  by intros [= <-].
Qed.

Lemma save_orderItem_valid (q : float) (p : ObjectId) (s : HState) :
  cast_number q = Some q →
  save_orderItem (OrderItem.mk_input (Some q) (Some (Casts p))) s
  = (Normal (fresh (dom (orderItems (db s)))),
     mkH (set_orderItems (insert (fresh (dom (orderItems (db s)))) (OrderItem.mk q p)) (db s))
         (res s) (issued s ++ [Insert COrderItem (fresh (dom (orderItems (db s))))])).
Proof.
  intros Hq. unfold save_orderItem, OrderItem.validate. msimpl. cbn.
  rewrite Hq. reflexivity.
Qed.

Lemma validate_item_valid (q : float) (p : ObjectId) :
  cast_number q = Some q →
  OrderItem.validate (OrderItem.mk_input (Some q) (Some (Casts p))) = inr (OrderItem.mk q p).
Proof. intros Hq. unfold OrderItem.validate. cbn. by rewrite Hq. Qed.

Lemma validate_item_invalid (it : OrderItem.input) :
  ¬ item_valid it →
  OrderItem.validate it
  = inl (JsError.ValidationError "OrderItem validation failed").
Proof.
  intros H. unfold OrderItem.validate.
  destruct (OrderItem.i_quantity it ≫= cast_number) as [q |] eqn:Eq; [| done].
  destruct (OrderItem.i_product it ≫= cast_oid) as [p |] eqn:Ep; [| done].
  exfalso. apply H. unfold item_valid. rewrite Eq, Ep. split; by eexists.
Qed.

Lemma save_orderItem_invalid (it : OrderItem.input) (s : HState) :
  ¬ item_valid it →
  save_orderItem it s
  = (Thrown (JsError.ValidationError "OrderItem validation failed"), s).
Proof.
  intros H. unfold save_orderItem. msimpl.
  by rewrite (validate_item_invalid it H).
Qed.

Lemma item_valid_inv (it : OrderItem.input) :
  item_valid it →
  ∃ q p, it = OrderItem.mk_input (Some q) (Some (Casts p)) ∧ cast_number q = Some q.
Proof.
  destruct it as [[q |] [[p | v] |]]; intros [[q' Hq] [p' Hp]]; cbn in *;
    try done.
  apply cast_number_Some in Hq as [_ Hq]. eauto.
Qed.

Lemma start_all_cons {A B} (f : A → M B) (x : A) (xs : list A) (s : HState) :
  start_all f (x :: xs) s
  = let '(c, s1) := f x s in
    match start_all f xs s1 with
    | (Normal cs, s2) => (Normal (c :: cs), s2)
    | (Thrown e, s2) => (Thrown e, s2)
    end.
Proof.
  cbn [start_all]. rewrite bind_run. unfold settle.
  destruct (f x s) as [c s1]. rewrite bind_run.
  destruct (start_all f xs s1) as [[cs|e] s2]; reflexivity.
Qed.

(** What saving the submitted items does, whatever the items are. *)
Lemma save_all_frame (items : list OrderItem.input) : ∀ s : HState,
  ∃ cs s',
    start_all save_orderItem items s = (Normal cs, s')
    ∧ res s' = res s
    ∧ categories (db s') = categories (db s)
    ∧ products (db s') = products (db s)
    ∧ orders (db s') = orders (db s)
    ∧ users (db s') = users (db s)
    ∧ (Exists (λ it, ¬ item_valid it) items → ∃ e, first_rejection cs = inl e).
Proof.
  induction items as [|it rest IH]; intros s.
  - exists [], s. repeat split; try reflexivity. intros H. inversion H.
  - rewrite start_all_cons.
    destruct (decide (item_valid it)) as [Hv|Hv].
    + destruct (item_valid_inv it Hv) as (q & p & -> & Hq).
      rewrite (save_orderItem_valid q p s Hq).
      match goal with |- context [start_all _ rest ?s1] =>
        destruct (IH s1) as (cs & s' & E & Hr & Hc & Hp & Ho & Hu & Hex) end.
      rewrite E. eexists _, s'. split; [reflexivity |].
      repeat split; try (cbn in *; congruence).
      intros H. apply Exists_cons in H as [H|H]; [by destruct H |].
      destruct (Hex H) as [e He]. exists e. cbn. by rewrite He.
    + rewrite save_orderItem_invalid by done.
      destruct (IH s) as (cs & s' & E & Hr & Hc & Hp & Ho & Hu & Hex).
      rewrite E. eexists _, s'. split; [reflexivity |].
      repeat split; try done. intros _. eexists. reflexivity.
Qed.

(** Saving items that all pass the schema: each gets an identifier that
    was unused, all identifiers differ, every item is in the collection
    afterwards, and nothing else changes. *)
Lemma save_all_valid (items : list OrderItem.input) : ∀ s : HState,
  Forall item_valid items →
  ∃ ids s',
    start_all save_orderItem items s = (Normal (Normal <$> ids), s')
    ∧ res s' = res s
    ∧ issued s' = issued s ++ (Insert COrderItem <$> ids)
    ∧ products (db s') = products (db s)
    ∧ orders (db s') = orders (db s)
    ∧ orderItems (db s) ⊆ orderItems (db s')
    ∧ NoDup ids
    ∧ Forall (λ id, orderItems (db s) !! id = None) ids
    ∧ Forall2 (holds (orderItems (db s'))) ids items.
Proof.
  induction items as [|it rest IH]; intros s Hv.
  - exists [], s. cbn. rewrite app_nil_r.
    repeat split; try done; constructor.
  - apply Forall_cons in Hv as [Hit Hrest].
    destruct (item_valid_inv it Hit) as (q & p & -> & Hq).
    rewrite start_all_cons, (save_orderItem_valid q p s Hq).
    set (id := fresh (dom (orderItems (db s)))).
    assert (orderItems (db s) !! id = None) as Hfresh
      by (apply not_elem_of_dom, is_fresh).
    match goal with |- context [start_all _ rest ?s1] =>
      destruct (IH s1 Hrest)
        as (ids & s' & E & Hr & Hi & Hp & Ho & Hsub & Hnd & Hnew & Hall) end.
    rewrite E. exists (id :: ids), s'. cbn in *.
    assert (orderItems (db s') !! id = Some (OrderItem.mk q p)) as Hid.
    { eapply lookup_weaken; [| exact Hsub]. apply lookup_insert_eq. }
    repeat split; try done.
    + rewrite Hi, <- app_assoc. reflexivity.
    + etrans; [| exact Hsub]. by apply insert_subseteq.
    + constructor; [| done]. intros Hin.
      rewrite Forall_forall in Hnew. specialize (Hnew _ Hin).
      rewrite lookup_insert_eq in Hnew. discriminate.
    + constructor; [done |].
      eapply Forall_impl; [exact Hnew |]. cbn. intros id' H'.
      apply lookup_insert_None in H'. tauto.
    + constructor; [| done]. exists q, p. done.
Qed.

Lemma first_rejection_normal {B} (bs : list B) :
  first_rejection (Normal <$> bs) = inr bs.
Proof. induction bs as [|b bs IH]; cbn; [done | by rewrite IH]. Qed.

Lemma line_price_held (s : HState) (id : ObjectId) (it : OrderItem.input) :
  holds (orderItems (db s)) id it →
  line_price id s = (priced (db s) it, s).
Proof.
  intros (q & p & -> & Hid). unfold line_price, priced, line_total.
  msimpl. cbn. rewrite Hid. cbn.
  destruct (products (db s) !! p) as [prod|]; reflexivity.
Qed.

Lemma line_prices (s : HState) (ids : list ObjectId) (items : list OrderItem.input) :
  Forall2 (holds (orderItems (db s))) ids items →
  start_all line_price ids s = (Normal (priced (db s) <$> items), s).
Proof.
  induction 1 as [|id it ids items H _ IH]; [reflexivity |].
  rewrite start_all_cons, (line_price_held s id it H), IH. reflexivity.
Qed.

(** The rejection or the prices that [Promise.all] hands back, and what
    the [reduce] makes of the prices, against the total. *)
Lemma priced_total_from (d : Store) (items : list OrderItem.input) : ∀ acc,
  match total_from d acc items with
  | Some t =>
      ∃ ts, first_rejection (priced d <$> items) = inr ts
            ∧ fold_left (λ acc price, (acc + price)%float) ts acc = t
  | None => first_rejection (priced d <$> items) = inl null_price
  end.
Proof.
  induction items as [|it rest IH]; intros acc; cbn.
  - exists []. split; reflexivity.
  - change (priced d it) with
      (match line_total d it with Some t => Normal t | None => Thrown null_price end).
    destruct (line_total d it) as [t|]; cbn; [| done].
    specialize (IH (acc + t)%float).
    destruct (total_from d (acc + t) rest) as [ts|]; cbn.
    + destruct IH as (l & -> & Hl). exists (t :: l). split; [done |]. exact Hl.
    + by rewrite IH.
Qed.

Lemma priced_total (d : Store) (items : list OrderItem.input) :
  match order_total d items with
  | Some t =>
      ∃ ts, first_rejection (priced d <$> items) = inr ts
            ∧ fold_left (λ acc price, (acc + price)%float) ts 0%float = t
  | None => first_rejection (priced d <$> items) = inl null_price
  end.
Proof. apply priced_total_from. Qed.

Lemma validate_enum (now : Z) (i : Order.input) (o : Order.t) :
  Order.validate now i = inr o → Order.in_enum (Order.status o) = true.
Proof.
  unfold Order.validate. intros H.
  repeat match type of H with
         | match ?x with _ => _ end = _ => destruct x eqn:?; try discriminate
         end.
  injection H as <-. done.
Qed.

Lemma validate_default_status (now : Z) (i : Order.input) (o : Order.t) :
  Order.validate now i = inr o → Order.i_status i = None →
  Order.status o = "Pending".
Proof.
  unfold Order.validate. intros H Hs.
  repeat match type of H with
         | match ?x with _ => _ end = _ => destruct x eqn:?; try discriminate
         end.
  injection H as <-. cbn. by rewrite Hs.
Qed.

Lemma validate_fields_ok (body : post_body) (ids : list ObjectId)
    (tp : float) (now : Z) :
  order_fields_valid body = true →
  cast_number tp = Some tp →
  ∃ o, Order.validate now
         (Order.mk_input ids (b_shippingAddress1 body) (b_shippingAddress2 body)
            (b_city body) (b_zip body) (b_country body) (b_phone body)
            (b_status body) (Some tp) (b_user body) (b_dateOrdered body)) = inr o
       ∧ Order.totalPrice o = tp
       ∧ Order.orderItems o = ids
       ∧ Order.status o = default "Pending" (b_status body).
Proof.
  unfold order_fields_valid, Order.validate. intros H Htp.
  repeat (apply andb_prop in H as [H ?]).
  repeat match goal with
         | H : bool_decide _ = true |- _ =>
             apply bool_decide_eq_true in H; destruct H as [? H]
         end.
  cbn -[Order.in_enum]. rewrite Htp.
  repeat match goal with H : required_string _ = Some _ |- _ => rewrite H end.
  match goal with H : Order.cast_user _ = Some _ |- _ => rewrite H end.
  match goal with H : Order.in_enum _ = true |- _ => rewrite H end.
  eexists. repeat split; reflexivity.
Qed.

Lemma validate_fields_bad (body : post_body) (ids : list ObjectId)
    (tp : float) (now : Z) :
  order_fields_valid body = false ∨ cast_number tp = None →
  Order.validate now
    (Order.mk_input ids (b_shippingAddress1 body) (b_shippingAddress2 body)
       (b_city body) (b_zip body) (b_country body) (b_phone body)
       (b_status body) (Some tp) (b_user body) (b_dateOrdered body))
  = inl (JsError.ValidationError "Order validation failed").
Proof.
  unfold order_fields_valid, Order.validate. cbn -[Order.in_enum]. intros H.
  destruct (required_string (b_shippingAddress1 body)); [| done].
  destruct (required_string (b_city body)); [| done].
  destruct (required_string (b_zip body)); [| done].
  destruct (required_string (b_country body)); [| done].
  destruct (required_string (b_phone body)); [| done].
  destruct (cast_number tp); [| done].
  destruct (Order.cast_user (b_user body)); [| done].
  destruct H as [H | H]; [| done].
  rewrite !bool_decide_eq_true_2 in H by eauto. cbn -[Order.in_enum] in H.
  by rewrite H.
Qed.

Lemma promise_all_map_run {A B} (f : A → M B) (xs : list A) (s : HState) :
  promise_all_map f xs s
  = match start_all f xs s with
    | (Normal cs, s') =>
        match first_rejection cs with
        | inl e => (Thrown e, s')
        | inr bs => (Normal bs, s')
        end
    | (Thrown e, s') => (Thrown e, s')
    end.
Proof.
  unfold promise_all_map. rewrite bind_run.
  destruct (start_all f xs s) as [[cs|e] s']; [| done].
  destruct (first_rejection cs); reflexivity.
Qed.

Lemma total_from_products (d d' : Store) (items : list OrderItem.input) :
  products d' = products d →
  ∀ acc, total_from d' acc items = total_from d acc items.
Proof.
  intros Hp. induction items as [|it rest IH]; intros acc; [done |].
  cbn. unfold line_total. rewrite Hp.
  destruct (OrderItem.i_quantity it ≫= _) as [t |]; cbn; [apply IH | done].
Qed.

(** POST /orders on items that all pass the item schema: the items are in
    the collection under identifiers that were unused, and the handler
    ends in one of the three ways. *)
Lemma post_valid_items (d : Store) (body : post_body) (now : Z) :
  Forall item_valid (b_orderItems body) →
  ∃ ids,
    NoDup ids
    ∧ Forall (λ id, orderItems d !! id = None) ids
    ∧ Forall2 (holds (orderItems (db (run (post body now) d).2))) ids
              (b_orderItems body)
    ∧ products (db (run (post body now) d).2) = products d
    ∧ ending d body ids (run (post body now) d).
Proof.
  intros Hv. unfold run, post.
  destruct (save_all_valid (b_orderItems body) (mkH d fresh_res []) Hv)
    as (ids & s1 & E & Hr & Hi & Hp & Ho & Hsub & Hnd & Hnew & Hall).
  exists ids.
  rewrite bind_run, promise_all_map_run, E, first_rejection_normal.
  rewrite bind_run, promise_all_map_run, (line_prices s1 ids _ Hall).
  assert (order_total (db s1) (b_orderItems body)
          = order_total d (b_orderItems body)) as Htot
    by (apply total_from_products; exact Hp).
  pose proof (priced_total (db s1) (b_orderItems body)) as Hpt.
  rewrite Htot in Hpt. clear Htot E.
  destruct s1 as [[c1 p1 oi1 o1 u1] r1 i1]. cbn in Hr, Hi, Hp, Ho, Hsub, Hnew, Hall.
  subst r1 i1 p1 o1.
  destruct (order_total d (b_orderItems body)) as [t|] eqn:Et.
  - destruct Hpt as (ts & -> & Hsum). rewrite Hsum.
    destruct (order_fields_valid body) eqn:Ef;
      [destruct (cast_number t) as [t' |] eqn:Ec |].
    + apply cast_number_Some in Ec as [_ Ec].
      destruct (validate_fields_ok body ids t now Ef Ec) as (o & Eo & Ht & Hids & Hst).
      unfold catch, save_order. rewrite !bind_run. cbn.
      rewrite Eo. cbn.
      repeat split; try done.
      eapply order_saved; cbn; done.
    + unfold catch, save_order. rewrite !bind_run. cbn.
      rewrite (validate_fields_bad body ids t now (or_intror Ec)). cbn.
      repeat split; try done.
      eapply save_failed; cbn; try done. by right.
    + unfold catch, save_order. rewrite !bind_run. cbn.
      rewrite (validate_fields_bad body ids t now (or_introl Ef)). cbn.
      repeat split; try done.
      eapply save_failed; cbn; try done. by left.
  - rewrite Hpt. cbn. repeat split; try done.
    eapply price_failed; cbn; done.
Qed.

Lemma post_invalid_items (d : Store) (body : post_body) (now : Z) :
  ¬ Forall item_valid (b_orderItems body) →
  orders (db (run (post body now) d).2) = orders d
  ∧ wire (run (post body now) d) = None
  ∧ ∃ e, (run (post body now) d).1 = Thrown e.
Proof.
  intros Hv. apply not_Forall_Exists in Hv; [| apply _].
  unfold run, post.
  destruct (save_all_frame (b_orderItems body) (mkH d fresh_res []))
    as (cs & s' & E & Hr & _ & _ & Ho & _ & Hex).
  destruct (Hex Hv) as [e He].
  rewrite bind_run, promise_all_map_run, E, He. cbn.
  unfold wire. cbn. rewrite Hr, Ho. eauto.
Qed.

Lemma total_defined (d : Store) (items : list OrderItem.input) :
  Forall item_valid items →
  Forall (references_existing_product d) items →
  is_Some (order_total d items).
Proof.
  unfold order_total. generalize 0%float.
  induction items as [|it rest IH]; intros acc Hv He; [by eexists |].
  apply Forall_cons in Hv as [Hv1 Hv2]. apply Forall_cons in He as [He1 He2].
  destruct (item_valid_inv it Hv1) as (q & p & -> & _).
  destruct He1 as (pid & [= <-] & [prod Hprod]).
  cbn. unfold line_total. cbn. rewrite Hprod. cbn. by apply IH.
Qed.

Lemma total_undefined (d : Store) (items : list OrderItem.input) :
  Exists (references_missing_product d) items →
  order_total d items = None.
Proof.
  intros H. unfold order_total. generalize 0%float.
  induction H as [it rest (pid & Hp & Hmiss) | it rest _ IH]; intros acc; cbn.
  - unfold line_total. rewrite Hp. destruct (OrderItem.i_quantity it); cbn; [| done].
    by rewrite Hmiss.
  - destruct (line_total d it); cbn; [apply IH | done].
Qed.

(** C1, as amended: when every submitted order item references an existing
    product, any order that POST /orders creates carries as totalPrice the
    total in the arithmetic of JavaScript numbers (each price times
    quantity rounded to a double, the products added from the left, each
    sum rounded to a double), and is returned with status 201; and an
    order is created whenever the items and the order fields pass their
    schemas and that total is not NaN. *)
Theorem C1_order_total_price (d : Store) (body : post_body) (now : Z) :
  Forall (references_existing_product d) (b_orderItems body) →
  (∀ id o, created d (run (post body now) d) id o →
     order_total d (b_orderItems body) = Some (Order.totalPrice o)
     ∧ wire (run (post body now) d)
       = Some (mkResponse 201 (inl (plain_json id o))))
  ∧ (Forall item_valid (b_orderItems body) →
     order_fields_valid body = true →
     order_total d (b_orderItems body) ≫= cast_number ≠ None →
     ∃ id o, created d (run (post body now) d) id o).
Proof.
  intros Hex.
  destruct (decide (Forall item_valid (b_orderItems body))) as [Hv|Hv].
  - destruct (post_valid_items d body now Hv) as (ids & _ & _ & _ & _ & Hend).
    destruct (total_defined d _ Hv Hex) as [t Ht].
    assert (orders d !! fresh (dom (orders d)) = None) as Hfresh
      by (apply not_elem_of_dom, is_fresh).
    destruct Hend as [Hn | t' Ht' Hf _ _ Ho _ | t' o' Ht' Hf Hc _ Htp _ _ Ho Hw _].
    + congruence.
    + split.
      * intros id o [Hold Hnew]. rewrite Ho in Hnew. congruence.
      * intros _ Hfv Hnan. exfalso. rewrite Ht' in Hnan. cbn in Hnan.
        destruct Hf as [Hf | Hf]; congruence.
    + split.
      * intros id o [Hold Hnew]. rewrite Ho in Hnew.
        apply lookup_insert_Some in Hnew as [[<- <-] | [_ Hnew]]; [| congruence].
        split; congruence.
      * intros _ _ _. exists (fresh (dom (orders d))), o'. split; [done |].
        rewrite Ho. apply lookup_insert_eq.
  - destruct (post_invalid_items d body now Hv) as (Ho & _ & _).
    split; [| done].
    intros id o [Hold Hnew]. rewrite Ho in Hnew. congruence.
Qed.

Lemma saved_ids_normal (ids : list ObjectId) : saved_ids (Normal <$> ids) = ids.
Proof. unfold saved_ids. induction ids as [|i ids IH]; cbn; [done | by f_equal]. Qed.

Lemma save_outcome_mono (m0 m1 m2 m3 : gmap N OrderItem.t) it c :
  m0 ⊆ m1 → m2 ⊆ m3 → save_outcome m1 m2 it c → save_outcome m0 m3 it c.
Proof.
  unfold save_outcome. intros H01 H23.
  destruct (OrderItem.validate it); [done |].
  intros (id & -> & Hnone & Hsome). exists id. split; [done |]. split.
  - destruct (m0 !! id) eqn:E; [| done].
    eapply lookup_weaken in E; [| exact H01]. congruence.
  - eapply lookup_weaken; eauto.
Qed.

(** Saving the submitted items, whatever they are: an item that passes the
    schema is stored under an identifier that was unused, an item that does
    not is refused; the identifiers differ, and nothing else changes. *)
Lemma save_all_any (items : list OrderItem.input) : ∀ s : HState,
  ∃ cs s',
    start_all save_orderItem items s = (Normal cs, s')
    ∧ res s' = res s
    ∧ issued s' = issued s ++ (Insert COrderItem <$> saved_ids cs)
    ∧ orders (db s') = orders (db s)
    ∧ orderItems (db s) ⊆ orderItems (db s')
    ∧ NoDup (saved_ids cs)
    ∧ Forall (λ id, orderItems (db s) !! id = None) (saved_ids cs)
    ∧ Forall2 (save_outcome (orderItems (db s)) (orderItems (db s'))) items cs
    ∧ (Exists (λ it, ¬ item_valid it) items → ∃ e, first_rejection cs = inl e).
Proof.
  induction items as [|it rest IH]; intros s.
  - exists [], s. cbn. rewrite app_nil_r.
    repeat split; try done; try constructor. intros H. inversion H.
  - rewrite start_all_cons.
    destruct (decide (item_valid it)) as [Hv|Hv].
    + destruct (item_valid_inv it Hv) as (q & p & -> & Hq).
      rewrite (save_orderItem_valid q p s Hq).
      set (id := fresh (dom (orderItems (db s)))).
      assert (orderItems (db s) !! id = None) as Hfresh
        by (apply not_elem_of_dom, is_fresh).
      match goal with |- context [start_all _ rest ?s1] =>
        destruct (IH s1)
          as (cs & s' & E & Hr & Hi & Ho & Hsub & Hnd & Hnew & Hall & Hex) end.
      rewrite E. exists (Normal id :: cs), s'. cbn in *.
      assert (orderItems (db s) ⊆ <[id:=OrderItem.mk q p]> (orderItems (db s)))
        as Hsub0 by (by apply insert_subseteq).
      assert (orderItems (db s') !! id = Some (OrderItem.mk q p)) as Hid.
      { eapply lookup_weaken; [| exact Hsub]. apply lookup_insert_eq. }
      repeat split; try done.
      * rewrite Hi, <- app_assoc. reflexivity.
      * by etrans.
      * constructor; [| done]. intros Hin.
        rewrite Forall_forall in Hnew. specialize (Hnew _ Hin).
        rewrite lookup_insert_eq in Hnew. discriminate.
      * constructor; [done |].
        eapply Forall_impl; [exact Hnew |]. cbn. intros id' H'.
        apply lookup_insert_None in H'. tauto.
      * constructor.
        -- unfold save_outcome. rewrite (validate_item_valid q p Hq).
           exists id. done.
        -- eapply Forall2_impl; [exact Hall |]. intros it c.
           by apply save_outcome_mono.
      * intros H. apply Exists_cons in H as [H|H]; [by destruct H |].
        destruct (Hex H) as [e He]. exists e. by rewrite He.
    + rewrite save_orderItem_invalid by done.
      destruct (IH s) as (cs & s' & E & Hr & Hi & Ho & Hsub & Hnd & Hnew & Hall & Hex).
      rewrite E. eexists (Thrown _ :: cs), s'. split; [reflexivity |].
      repeat split; try done.
      * constructor; [| done]. unfold save_outcome.
        by rewrite (validate_item_invalid it Hv).
      * intros _. eexists. reflexivity.
Qed.

(** POST /orders on any body: every submitted item that passes the item
    schema is in the collection afterwards, under an identifier that was
    unused; the item inserts come before the insert of the order, if
    there is one. *)
Lemma post_persists (d : Store) (body : post_body) (now : Z) :
  ∃ cs,
    Forall2 (save_outcome (orderItems d) (orderItems (db (run (post body now) d).2)))
            (b_orderItems body) cs
    ∧ NoDup (saved_ids cs)
    ∧ (Forall item_valid (b_orderItems body) → cs = Normal <$> saved_ids cs)
    ∧ ((issued (run (post body now) d).2 = Insert COrderItem <$> saved_ids cs
        ∧ orders (db (run (post body now) d).2) = orders d
        ∧ wire_status (run (post body now) d) ≠ Some 201)
       ∨ (issued (run (post body now) d).2
          = (Insert COrderItem <$> saved_ids cs)
            ++ [Insert COrder (fresh (dom (orders d)))]
          ∧ order_fields_valid body = true
          ∧ is_Some (order_total d (b_orderItems body)))).
Proof.
  destruct (decide (Forall item_valid (b_orderItems body))) as [Hv|Hv].
  - destruct (post_valid_items d body now Hv) as (ids & Hnd & Hnew & Hall & _ & Hend).
    exists (Normal <$> ids). rewrite saved_ids_normal.
    split; [| split; [done | split; [done |]]].
    + clear Hend Hnd.
      induction Hall as [|id it ids items (q & p & -> & Hl) _ IH]; [constructor |].
      apply Forall_cons in Hnew as [Hn1 Hn2].
      apply Forall_cons in Hv as [Hv1 Hv2].
      constructor; [| by apply IH].
      destruct (item_valid_inv _ Hv1) as (q' & p' & [= <- <-] & Hq).
      unfold save_outcome. rewrite (validate_item_valid q p Hq).
      exists id. done.
    + destruct Hend as [_ _ Hw Ho Hi | t _ _ _ Hw Ho Hi | t o Ht Hf _ _ _ _ _ _ _ Hi].
      * left. unfold wire_status. rewrite Hw. done.
      * left. unfold wire_status. rewrite Hw. done.
      * right. rewrite Ht. split; [done | split; [done | by eexists]].
  - assert (Exists (λ it, ¬ item_valid it) (b_orderItems body)) as Hex
      by (apply not_Forall_Exists; [apply _ | done]).
    unfold run, post.
    destruct (save_all_any (b_orderItems body) (mkH d fresh_res []))
      as (cs & s' & E & Hr & Hi & Ho & Hsub & Hnd & Hnew & Hall & Hrej).
    destruct (Hrej Hex) as [e He].
    rewrite bind_run, promise_all_map_run, E, He. cbn in *.
    exists cs. split; [done | split; [done | split; [done |]]].
    left. unfold wire_status, wire. cbn. rewrite Hr. done.
Qed.
(** C10: POST /orders saves the submitted order items before it builds,
    validates and saves the order: every submitted item that passes the
    item schema is stored under an identifier that was unused, and the item
    inserts precede the insert of the order, if there is one.  If an item
    references a product that does not exist, so that the total cannot be
    computed, or the order does not pass its schema, no order is stored and
    no 201 is sent, while the items stay in the collection. *)
Theorem C10_order_items_outlive_failure (d : Store) (body : post_body) (now : Z) :
  ∃ cs,
    Forall2 (save_outcome (orderItems d) (orderItems (db (run (post body now) d).2)))
            (b_orderItems body) cs
    ∧ NoDup (saved_ids cs)
    ∧ (∃ rest, issued (run (post body now) d).2
               = (Insert COrderItem <$> saved_ids cs) ++ rest
               ∧ (rest = [] ∨ rest = [Insert COrder (fresh (dom (orders d)))]))
    ∧ (Exists (references_missing_product d) (b_orderItems body)
       ∨ order_fields_valid body = false →
       orders (db (run (post body now) d).2) = orders d
       ∧ issued (run (post body now) d).2 = Insert COrderItem <$> saved_ids cs
       ∧ wire_status (run (post body now) d) ≠ Some 201)
    ∧ (Forall item_valid (b_orderItems body) →
       Exists (references_missing_product d) (b_orderItems body) →
       (run (post body now) d).1 = Thrown null_price
       ∧ wire (run (post body now) d) = None)
    ∧ (Forall item_valid (b_orderItems body) →
       Forall (references_existing_product d) (b_orderItems body) →
       order_fields_valid body = false →
       wire_status (run (post body now) d) = Some 500).
Proof.
  destruct (post_persists d body now) as (cs & Hall & Hnd & _ & Hcase).
  exists cs. split; [done | split; [done |]].
  split; [| split; [| split]].
  - destruct Hcase as [(Hi & _ & _) | (Hi & _ & _)].
    + exists []. rewrite app_nil_r. eauto.
    + eexists. eauto.
  - intros Hfail. destruct Hcase as [Hleft | (_ & Hf & Ht)]; [tauto |].
    destruct Hfail as [Hmiss | Hbad]; [| congruence].
    apply total_undefined in Hmiss. rewrite Hmiss in Ht. by destruct Ht.
  - intros Hv Hmiss. apply total_undefined in Hmiss.
    destruct (post_valid_items d body now Hv) as (ids & _ & _ & _ & _ & Hend).
    destruct Hend as [_ Ht Hw _ _ | t Ht | t o Ht]; [done | congruence..].
  - intros Hv Hex Hbad. destruct (total_defined d _ Hv Hex) as [t Ht].
    destruct (post_valid_items d body now Hv) as (ids & _ & _ & _ & _ & Hend).
    destruct Hend as [Hn | t' _ _ _ Hw _ _ | t' o _ Hf]; try congruence.
    unfold wire_status. by rewrite Hw.
Qed.

(** ** PUT and DELETE on an order *)

(** POST keeps the status invariant: [save()] runs the enum validator. *)
Lemma post_keeps_status_invariant (d : Store) (body : post_body) (now : Z) :
  status_invariant d → status_invariant (db (run (post body now) d).2).
Proof.
  intros Hinv.
  destruct (decide (Forall item_valid (b_orderItems body))) as [Hv|Hv].
  - destruct (post_valid_items d body now Hv) as (ids & _ & _ & _ & _ & Hend).
    destruct Hend as [_ _ _ Ho _ | t _ _ _ _ Ho _ | t o _ Hf _ _ _ _ Hst Ho _ _];
      intros id o' Hl; rewrite Ho in Hl; try (by eapply Hinv).
    apply lookup_insert_Some in Hl as [[_ <-] | [_ Hl]]; [| by eapply Hinv].
    rewrite Hst. unfold order_fields_valid in Hf.
    by apply andb_prop in Hf as [_ Hf].
  - destruct (post_invalid_items d body now Hv) as (Ho & _ & _).
    intros id o Hl. rewrite Ho in Hl. by eapply Hinv.
Qed.

(** An order created with no status gets "Pending". *)
Lemma post_default_status (d : Store) (body : post_body) (now : Z) id o :
  b_status body = None → created d (run (post body now) d) id o →
  Order.status o = "Pending".
Proof.
  intros Hs [Hold Hnew].
  destruct (decide (Forall item_valid (b_orderItems body))) as [Hv|Hv].
  - destruct (post_valid_items d body now Hv) as (ids & _ & _ & _ & _ & Hend).
    destruct Hend as [_ _ _ Ho _ | t _ _ _ _ Ho _ | t o' _ Hf _ _ _ _ Hst Ho _ _];
      rewrite Ho in Hnew; try congruence.
    apply lookup_insert_Some in Hnew as [[_ <-] | [_ Hnew]]; [| congruence].
    by rewrite Hst, Hs.
  - destruct (post_invalid_items d body now Hv) as (Ho & _ & _).
    rewrite Ho in Hnew. congruence.
Qed.

(** PUT /orders/:id writes whatever status the body carries. *)
Lemma put_writes_any_status (d : Store) (id : ObjectId) (o : Order.t) (s : string) :
  orders d !! id = Some o →
  orders (db (run (put id (Some s)) d).2) = <[id := Order.set_status s o]> (orders d)
  ∧ wire (run (put id (Some s)) d)
    = Some (mkResponse 200 (inl (plain_json id (Order.set_status s o)))).
Proof.
  intros H. unfold run, put, findByIdAndUpdate, wire. msimpl. cbn.
  rewrite H. cbn. done.
Qed.

(** C7 fails on PUT /orders/:id: the update is applied without the enum
    validator.  On a database whose one order is Pending, a PUT with
    status "Refunded" is answered with 200 and leaves the order with a
    status outside the enumeration. *)
Theorem C7_put_stores_status_outside_enum :
  status_invariant sample_db
  ∧ Order.in_enum "Refunded" = false
  ∧ wire_status (run (put 1%N (Some "Refunded")) sample_db) = Some 200
  ∧ (Order.status <$> orders (db (run (put 1%N (Some "Refunded")) sample_db).2) !! 1%N)
    = Some "Refunded"
  ∧ ¬ status_invariant (db (run (put 1%N (Some "Refunded")) sample_db).2).
Proof.
  assert (orders sample_db !! 1%N = Some sample_order) as Hl by reflexivity.
  destruct (put_writes_any_status sample_db 1%N sample_order "Refunded" Hl)
    as [Ho Hw].
  split; [| split; [| split; [| split]]].
  - intros id o H. unfold sample_db in H. cbn in H.
    apply lookup_singleton_Some in H as [_ <-]. reflexivity.
  - reflexivity.
  - unfold wire_status. by rewrite Hw.
  - rewrite Ho, lookup_insert_eq. reflexivity.
  - intros Hinv. specialize (Hinv 1%N (Order.set_status "Refunded" sample_order)).
    rewrite Ho, lookup_insert_eq in Hinv. specialize (Hinv eq_refl).
    discriminate.
Qed.

Lemma delete_items_run (ids : list ObjectId) : ∀ s : HState,
  ∃ cs s',
    start_all delete_orderItem ids s = (Normal cs, s')
    ∧ res s' = res s
    ∧ issued s' = issued s ++ (Delete COrderItem <$> ids)
    ∧ categories (db s') = categories (db s)
    ∧ products (db s') = products (db s)
    ∧ orders (db s') = orders (db s)
    ∧ users (db s') = users (db s)
    ∧ (∀ i, orderItems (db s') !! i
            = if bool_decide (i ∈ ids) then None else orderItems (db s) !! i).
Proof.
  induction ids as [|id ids IH]; intros s.
  - exists [], s. cbn. rewrite app_nil_r. repeat split; try done.
  - rewrite start_all_cons. unfold delete_orderItem at 1. rewrite bind_run. cbn.
    match goal with |- context [start_all _ ids ?s1] =>
      destruct (IH s1) as (cs & s' & E & Hr & Hi & Hc & Hp & Ho & Hu & Hl) end.
    rewrite E. eexists _, s'. split; [reflexivity |]. cbn in *.
    repeat split; try done.
    + rewrite Hi, <- app_assoc. reflexivity.
    + intros i. rewrite Hl.
      destruct (decide (i = id)) as [->|Hne].
      * rewrite lookup_delete_eq. rewrite (bool_decide_eq_true_2 (id ∈ id :: ids)).
        -- by case_bool_decide.
        -- left.
      * rewrite lookup_delete_ne by done.
        case_bool_decide as H1; case_bool_decide as H2; try done.
        -- exfalso. apply H2. by right.
        -- exfalso. apply elem_of_cons in H2 as [?|?]; done.
Qed.

(** C6, as amended: DELETE /orders/:id on an existing order removes the
    order, issues a deletion for each identifier in its orderItems, one
    after the other and with no transaction around them, and answers 200;
    on an identifier that casts and matches no order it answers 404, leaves
    the database as it was and issues no deletion of an order item; on an
    identifier that does not cast, which matches no order either, it
    answers 500 with the message of the cast error, leaves the database as
    it was and issues no deletion at all. *)
Theorem C6_delete_order (d : Store) (raw : RawId) :
  match raw with
  | Casts id =>
      match orders d !! id with
      | Some o =>
          wire (run (delete id) d)
          = Some (mkResponse 200
                    (inl (JObj [("success", JBool true);
                                ("message", JStr "Order deleted successfully")])))
          ∧ orders (db (run (delete id) d).2) = base.delete id (orders d)
          ∧ issued (run (delete id) d).2
            = Delete COrder id :: (Delete COrderItem <$> Order.orderItems o)
          ∧ (∀ i, orderItems (db (run (delete id) d).2) !! i
                  = if bool_decide (i ∈ Order.orderItems o) then None
                    else orderItems d !! i)
      | None =>
          wire (run (delete id) d)
          = Some (mkResponse 404
                    (inl (JObj [("success", JBool false);
                                ("message", JStr "Order not found")])))
          ∧ db (run (delete id) d).2 = d
          ∧ issued (run (delete id) d).2 = [Delete COrder id]
      end
  | NoCast v =>
      wire (run (delete raw) d)
      = Some (mkResponse 500
                (inl (JObj [("success", JBool false);
                            ("error",
                             JStr (JsError.message
                                     (JsError.CastError v "Order")))])))
      ∧ db (run (delete raw) d).2 = d
      ∧ issued (run (delete raw) d).2 = []
  end.
Proof.
  destruct raw as [id | v]; [| repeat split; reflexivity].
  unfold run, delete, findByIdAndDelete. msimpl.
  destruct (orders d !! id) as [o|] eqn:Hl.
  - match goal with |- context [start_all _ _ ?s1] =>
      destruct (delete_items_run (Order.orderItems o) s1)
        as (cs & s' & E & Hr & Hi & Hc & Hp & Ho & Hu & Hdel) end.
    rewrite E. destruct s' as [d' r' i']. cbn in *. subst r' i'.
    repeat split; try done.
  - cbn. repeat split; try done.
    destruct d as [c p oi o u]. unfold set_orders. cbn in *.
    by rewrite delete_id.
Qed.

(** C6, as the specification states it, fails in its second half: an
    identifier that does not cast is the identifier of no order, and the
    DELETE is answered 500, not 404. *)
Lemma C6_counterexample :
  stored AnOrder sample_db (NoCast "abc") = false
  ∧ wire_status (run (delete (NoCast "abc")) sample_db) = Some 500
  ∧ wire_status (run (delete (NoCast "abc")) sample_db) ≠ Some 404.
Proof. repeat split; try reflexivity. discriminate. Qed.

Lemma sample_items_reference_products :
  Forall (references_existing_product sample_catalog) (b_orderItems sample_body).
Proof.
  repeat constructor; eexists; (split; [reflexivity | eexists; reflexivity]).
Defined.

Lemma sample_items_valid :
  Forall item_valid (b_orderItems sample_body).
Proof. repeat constructor; eexists; reflexivity. Defined.

Lemma sample_total_is_a_number :
  order_total sample_catalog (b_orderItems sample_body) ≫= cast_number ≠ None.
Proof. vm_compute. discriminate. Defined.

Lemma C1_order_total_price_witness :
  Forall (references_existing_product sample_catalog) (b_orderItems sample_body)
  ∧ ∃ id o, created sample_catalog (run (post sample_body 0) sample_catalog) id o
            ∧ Some (Order.totalPrice o) = Some 31%float.
Proof.
  split; [exact sample_items_reference_products |].
  destruct (C1_order_total_price sample_catalog sample_body 0
              sample_items_reference_products) as [Htotal Hcreated].
  destruct (Hcreated sample_items_valid eq_refl sample_total_is_a_number)
    as (id & o & Hc).
  exists id, o. split; [exact Hc |].
  destruct (Htotal id o Hc) as [Ht _]. rewrite <- Ht. reflexivity.
Defined.

(** C1, as the specification states it, fails: for three pieces of a
    product priced 9007199254740991 the order is created with the
    totalPrice 27021597764222972, while the quantity times the price is
    27021597764222973. *)
Lemma C1_counterexample :
  Forall (references_existing_product large_catalog) (b_orderItems large_body)
  ∧ ∃ id o,
      created large_catalog (run (post large_body 0) large_catalog) id o
      ∧ exact (Order.totalPrice o) = Some (inject_Z 27021597764222972)
      ∧ exact_order_total large_catalog (b_orderItems large_body)
        = Some (inject_Z 27021597764222973)
      ∧ ¬ (inject_Z 27021597764222972 == inject_Z 27021597764222973)%Q.
Proof.
  split.
  - repeat constructor; eexists; (split; [reflexivity | eexists; reflexivity]).
  - exists 0%N. eexists. split; [split; [reflexivity | vm_compute; reflexivity] |].
    split; [vm_compute; reflexivity |]. split; [vm_compute; reflexivity |].
    intros H. apply Qeq_bool_iff in H. discriminate H.
Qed.

(** On the sample catalogue, a request whose second item references a
    product that is not there: the handler throws and both items stay. *)
Example order_items_left_behind :
  (run (post sample_body_missing_product 0) sample_catalog).1 = Thrown null_price
  ∧ orders (db (run (post sample_body_missing_product 0) sample_catalog).2) = ∅
  ∧ map_to_list (orderItems (db (run (post sample_body_missing_product 0)
                                   sample_catalog).2))
    = [(1%N, OrderItem.mk 3%float 9%N); (0%N, OrderItem.mk 2%float 1%N)].
Proof. vm_compute. repeat split. Qed.
End OrderProps.

(** ** The documentation generators *)

Module SwaggerProps.
Import RouteGenerator SchemaGenerator SwaggerDoc.

(** *** Objects *)

Lemma assoc_jset_eq (k : string) (v : Json) (fields : list (string * Json)) :
  assoc k (jset k v fields) = Some v.
Proof.
  induction fields as [|[k' v'] rest IH]; cbn.
  - by rewrite String.eqb_refl.
  - destruct (String.eqb_spec k k') as [->|Hne]; cbn.
    + by rewrite String.eqb_refl.
    + destruct (String.eqb_spec k k'); [done | exact IH].
Qed.

Lemma assoc_jset_ne (k k' : string) (v : Json) (fields : list (string * Json)) :
  k ≠ k' → assoc k (jset k' v fields) = assoc k fields.
Proof.
  intros Hne. induction fields as [|[k2 v2] rest IH]; cbn.
  - destruct (String.eqb_spec k k'); done.
  - destruct (String.eqb_spec k' k2) as [->|Hne2]; cbn.
    + destruct (String.eqb_spec k k2); done.
    + destruct (String.eqb_spec k k2); [done | exact IH].
Qed.

Ltac jset_other :=
  repeat match goal with
         | |- context [assoc ?k (jset ?k' _ _)] =>
             rewrite (assoc_jset_ne k k') by discriminate
         end.

Lemma jget_jput_eq (k : string) (v : Json) (fields : list (string * Json)) :
  jget k (jput k v (JObj fields)) = Some v.
Proof. apply assoc_jset_eq. Qed.

Lemma jget_jput_ne (k k' : string) (v j : Json) :
  k ≠ k' → jget k (jput k' v j) = jget k j.
Proof. intros H. destruct j; try done. by apply assoc_jset_ne. Qed.


(** *** Response schemas *)

Lemma includes_not_root (sub path : string) :
  Str.includes sub "/" = false → Str.includes sub "" = false →
  Str.includes sub path = true → is_root path = false.
Proof.
  intros H1 H2 H. unfold is_root.
  destruct (String.eqb_spec path "/") as [->|_]; [congruence |].
  destruct (String.eqb_spec path "") as [->|_]; [congruence | done].
Qed.

Lemma get_by_id_schema (path tag : string) :
  Str.includes "/:id" path = true →
  response_schema (determineResponseSchema path "get" tag)
  = Some (schema_ref (singular tag)).
Proof.
  intros H. unfold determineResponseSchema, successResponse.
  rewrite (includes_not_root "/:id" path eq_refl eq_refl H), H. reflexivity.
Qed.

Lemma get_count_schema (path tag : string) :
  Str.includes "/count" path = true → Str.includes "/:id" path = false →
  response_schema (determineResponseSchema path "get" tag) = Some count_schema.
Proof.
  intros H Hid. unfold determineResponseSchema, successResponse.
  rewrite (includes_not_root "/count" path eq_refl eq_refl H), H, Hid. reflexivity.
Qed.

Lemma get_root_schema (path tag : string) :
  is_root path = true →
  response_schema (determineResponseSchema path "get" tag)
  = Some (array_of (singular tag)).
Proof.
  intros H. unfold determineResponseSchema, successResponse. rewrite H.
  reflexivity.
Qed.

Lemma post_root_schema (path tag : string) :
  is_root path = true →
  response_schema (determineResponseSchema path "post" tag)
  = Some (schema_ref (singular tag)).
Proof.
  intros H. unfold determineResponseSchema, successResponse. rewrite H.
  reflexivity.
Qed.

Lemma delete_by_id_schema (path tag : string) :
  Str.includes "/:id" path = true →
  response_schema (determineResponseSchema path "delete" tag)
  = Some (deleted_schema (singular tag)).
Proof.
  intros H. unfold determineResponseSchema, successResponse. rewrite H.
  reflexivity.
Qed.

(** *** Operation identifiers, tags and parameters on the routers' paths *)

Example operation_id_count : generateOperationId "/get/count" "get" = "getCount".
Proof. reflexivity. Qed.

Example operation_id_root : generateOperationId "/" "post" = "postRoot".
Proof. reflexivity. Qed.

Example operation_id_by_id : generateOperationId "/:id" "delete" = "deleteid".
Proof. reflexivity. Qed.

Example operation_id_gallery :
  generateOperationId "/gallery-images/:id" "put" = "putgalleryImagesId".
Proof. reflexivity. Qed.

Example tag_of_router : generateTag "orders.js" = "Orders".
Proof. reflexivity. Qed.

(** Dropping the final "s" of the tag names the resource; for the
    categories router the name so obtained is "Categorie". *)
Example singular_of_tags :
  singular "Orders" = "Order" ∧ singular "Categories" = "Categorie".
Proof. split; reflexivity. Qed.

Example path_params :
  scan_params "/get/userorders/:userId" None = ["userId"].
Proof. reflexivity. Qed.

(** A path with both markers is documented as a single resource: the
    test for [/:id] comes first. *)
Example id_before_count :
  response_schema (determineResponseSchema "/:id/count" "get" "Orders")
  = Some (schema_ref "Order").
Proof. reflexivity. Qed.

(** No route of the four routers has both markers. *)
Lemma registered_count_routes (file : string) (route : Route) :
  (file, route) ∈ registered_routes →
  Str.includes "/count" (r_path route) = true →
  Str.includes "/:id" (r_path route) = false.
Proof.
  intros Hin.
  assert (Forall (λ fr : string * Route,
                    implb (Str.includes "/count" (r_path fr.2))
                          (negb (Str.includes "/:id" (r_path fr.2))) = true)
                 registered_routes) as HF
    by (vm_compute; repeat constructor).
  rewrite Forall_forall in HF. specialize (HF _ Hin). cbn in HF.
  intros Hc. rewrite Hc in HF. cbn in HF. by apply negb_true_iff in HF.
Qed.

(** The generated paths hold, for every route of the four routers, the
    object built from the route's path and method. *)
Lemma registered_entries (file : string) (route : Route) :
  (file, route) ∈ registered_routes →
  generated_entry (generateSwaggerPaths routers_dir) file route
  = Some (path_object (generateTag file) (route_key file route) route).
Proof.
  intros Hin.
  assert (Forall (λ fr : string * Route,
                    generated_entry (generateSwaggerPaths routers_dir) fr.1 fr.2
                    = Some (path_object (generateTag fr.1) (route_key fr.1 fr.2) fr.2))
                 registered_routes) as HF.
  { let l := eval vm_compute in registered_routes in
    change registered_routes with l.
    repeat (apply Forall_cons; split; [vm_compute; reflexivity |]).
    constructor. }
  rewrite Forall_forall in HF. exact (HF _ Hin).
Qed.

(** *** Field definitions *)

Lemma add_path_other (field : string) (paths : list (string * SchemaType)) :
  ∀ init, field ∉ paths.*1 →
  assoc field (fold_left add_path paths init) = assoc field init.
Proof.
  induction paths as [|[k t] rest IH]; intros init Hnot; [done |].
  cbn [fold_left]. rewrite IH by (intros H; apply Hnot; cbn; by right).
  unfold add_path. cbn.
  destruct (String.eqb k "__v" || String.eqb k "_id"); [done |].
  apply assoc_jset_ne. intros ->. apply Hnot. cbn. left.
Qed.

Lemma model_properties_field (paths : list (string * SchemaType)) (field : string)
    (st : SchemaType) :
  NoDup paths.*1 → (field, st) ∈ paths → ¬ internal_path field →
  assoc field (model_properties paths) = Some (field_info st).
Proof.
  unfold model_properties. generalize
    [("id", JObj [type_of "string"; ("description", JStr "MongoDB ObjectId")])].
  induction paths as [|[k t] rest IH]; intros init Hnd Hin Hint.
  - by apply elem_of_nil in Hin.
  - cbn in Hnd. apply NoDup_cons in Hnd as [Hk Hnd]. cbn [fold_left].
    apply elem_of_cons in Hin as [[= <- <-] | Hin].
    + rewrite add_path_other by done. unfold add_path. cbn.
      destruct (String.eqb_spec field "__v") as [E|_]; [exfalso; apply Hint; by left |].
      destruct (String.eqb_spec field "_id") as [E|_]; [exfalso; apply Hint; by right |].
      cbn. apply assoc_jset_eq.
    + by apply IH.
Qed.

Lemma schemas_other (name : string) (models : list (string * model)) :
  ∀ init, name ∉ models.*1 →
  assoc name (fold_left
                (λ schemas entry,
                   match extractModelSchema (Some entry.2) with
                   | Some schema => jset entry.1 schema schemas
                   | None => schemas
                   end) models init) = assoc name init.
Proof.
  induction models as [|[k m] rest IH]; intros init Hnot; [done |].
  cbn [fold_left]. rewrite IH by (intros H; apply Hnot; cbn; by right).
  cbn. destruct (schema_paths m); [| done].
  apply assoc_jset_ne. intros ->. apply Hnot. cbn. left.
Qed.

Lemma schemas_fold (models : list (string * model)) (name : string)
    (m : model) (paths : list (string * SchemaType)) : ∀ init,
  NoDup models.*1 → (name, m) ∈ models → schema_paths m = Some paths →
  assoc name (fold_left
                (λ schemas entry,
                   match extractModelSchema (Some entry.2) with
                   | Some schema => jset entry.1 schema schemas
                   | None => schemas
                   end) models init)
  = Some (JObj [type_of "object"; ("properties", JObj (model_properties paths))]).
Proof.
  induction models as [|[k m'] rest IH]; intros init Hnd Hin Hp.
  - by apply elem_of_nil in Hin.
  - cbn in Hnd. apply NoDup_cons in Hnd as [Hk Hnd]. cbn [fold_left].
    apply elem_of_cons in Hin as [[= <- <-] | Hin].
    + rewrite schemas_other by done. cbn. rewrite Hp. apply assoc_jset_eq.
    + by apply IH.
Qed.

Lemma generated_schema (models : list (string * model)) (name : string)
    (m : model) (paths : list (string * SchemaType)) :
  NoDup models.*1 → (name, m) ∈ models → schema_paths m = Some paths →
  assoc name (generateSchemasFromModels models)
  = Some (JObj [type_of "object"; ("properties", JObj (model_properties paths))]).
Proof. apply schemas_fold. Qed.

Lemma component_schema (modelSchemas : list (string * Json)) (name : string)
    (schema : Json) :
  name ≠ "Error" → assoc name modelSchemas = Some schema →
  assoc name (component_schemas modelSchemas) = Some schema.
Proof.
  intros Hne H. unfold component_schemas, or_fallback.
  rewrite assoc_jset_ne by done.
  repeat match goal with
         | |- assoc name (jset ?k _ _) = _ =>
             destruct (decide (name = k)) as [->|?];
             [rewrite assoc_jset_eq, H; reflexivity | rewrite assoc_jset_ne by done]
         end.
  exact H.
Qed.

Lemma schema_of_document (api_url : option string) (models : list (string * model))
    (routers : list (string * list Route)) (name : string) :
  schema_of (document api_url models routers) name
  = assoc name (component_schemas (generateSchemasFromModels models)).
Proof. reflexivity. Qed.

Lemma documented_route_entry (api_url : option string) (models : list (string * model))
    (routers : list (string * list Route)) (file : string) (route : Route) :
  documented_route (document api_url models routers) file route
  = generated_entry (generateSwaggerPaths routers) file route.
Proof. reflexivity. Qed.

(** C8 fails on the categories router.  The response schema of GET
    /categories/{id} is computed from the tag by dropping its final "s": it
    is a reference to the schema named Categorie.  Whatever models are
    loaded (none of them named Categorie), the document defines no schema
    of that name, so the route is documented with no single-resource
    schema; the schema of the resource is there under the name Category. *)
Theorem C8_category_schema_undefined (api_url : option string)
    (models : list (string * model)) :
  "Categorie" ∉ models.*1 →
  let doc := document api_url models routers_dir in
  ("categories.js", mkRoute "get" "/:id") ∈ registered_routes
  ∧ (∃ entry responses,
       documented_route doc "categories.js" (mkRoute "get" "/:id") = Some entry
       ∧ jget "responses" entry = Some responses
       ∧ response_schema responses
         = Some (JObj [("$ref", JStr "#/components/schemas/Categorie")]))
  ∧ schema_of doc "Categorie" = None
  ∧ is_Some (schema_of doc "Category").
Proof.
  intros Hno doc.
  assert (("categories.js", mkRoute "get" "/:id") ∈ registered_routes) as Hin
    by (vm_compute; right; left).
  split; [exact Hin |]. split; [| split].
  - eexists _, _. split; [| split].
    + subst doc. rewrite documented_route_entry. by apply registered_entries.
    + reflexivity.
    + vm_compute. reflexivity.
  - subst doc. rewrite schema_of_document. unfold component_schemas.
    rewrite !assoc_jset_ne by discriminate.
    unfold generateSchemasFromModels. by rewrite schemas_other.
  - subst doc. rewrite schema_of_document. unfold component_schemas.
    rewrite !(assoc_jset_ne "Category") by discriminate.
    rewrite assoc_jset_eq. by eexists.
Qed.

Lemma C8_category_schema_undefined_witness :
  schema_of (document None models_dir routers_dir) "Categorie" = None
  ∧ is_Some (schema_of (document None models_dir routers_dir) "Category").
Proof.
  assert ("Categorie" ∉ models_dir.*1) as Hno.
  { cbn. intros H. repeat (apply elem_of_cons in H as [H | H]; [discriminate H |]).
    by apply elem_of_nil in H. }
  destruct (C8_category_schema_undefined None models_dir Hno) as (_ & _ & H1 & H2).
  exact (conj H1 H2).
Defined.
End SwaggerProps.

(** ** Strings *)

Module StrProps.

Lemma sapp_cons (a : ascii) (s t : string) : String a s +:+ t = String a (s +:+ t).
Proof. reflexivity. Qed.

Lemma sapp_nil (t : string) : "" +:+ t = t.
Proof. reflexivity. Qed.

Lemma sapp_empty_r (s : string) : s +:+ "" = s.
Proof. induction s as [|a s IH]; [done |]. by rewrite sapp_cons, IH. Qed.

Lemma sapp_assoc (s t u : string) : (s +:+ t) +:+ u = s +:+ t +:+ u.
Proof. induction s as [|a s IH]; [done |]. by rewrite !sapp_cons, IH. Qed.

Lemma rev_app_app (s1 s2 t : string) :
  String.rev_app (s1 +:+ s2) t = String.rev_app s2 (String.rev_app s1 t).
Proof.
  revert t. induction s1 as [|a s1 IH]; intros t; [done |].
  rewrite sapp_cons. cbn. apply IH.
Qed.

Lemma rev_app_rev_app (s t u : string) :
  String.rev_app (String.rev_app s t) u = String.rev_app t (s +:+ u).
Proof.
  revert t u. induction s as [|a s IH]; intros t u; [done |].
  cbn [String.rev_app]. rewrite IH. reflexivity.
Qed.

Lemma rev_involutive (s : string) : String.rev (String.rev s) = s.
Proof. unfold String.rev. rewrite rev_app_rev_app. apply sapp_empty_r. Qed.

Lemma has_char_app (c : ascii) (s t : string) :
  has_char c (s +:+ t) = has_char c s || has_char c t.
Proof.
  induction s as [|a s IH]; [done |]. rewrite sapp_cons. cbn.
  rewrite IH. by rewrite orb_assoc.
Qed.

Lemma has_char_rev_app (c : ascii) (s t : string) :
  has_char c (String.rev_app s t) = has_char c s || has_char c t.
Proof.
  revert t. induction s as [|a s IH]; intros t; cbn; [done |].
  rewrite IH. cbn. destruct (Ascii.eqb a c), (has_char c s), (has_char c t); done.
Qed.

Lemma has_char_rev (c : ascii) (s : string) :
  has_char c (String.rev s) = has_char c s.
Proof. unfold String.rev. rewrite has_char_rev_app. cbn. by rewrite orb_false_r. Qed.

Lemma prefix_app (s t : string) : String.prefix s (s +:+ t) = true.
Proof.
  induction s as [|a s IH]; [by destruct t |]. rewrite sapp_cons. cbn.
  destruct (Ascii.ascii_dec a a); [exact IH | done].
Qed.

Lemma includes_prefix (sub s : string) :
  String.prefix sub s = true → Str.includes sub s = true.
Proof. intros H. destruct s; cbn [Str.includes]; by rewrite H. Qed.

Lemma includes_app (sub before after : string) :
  Str.includes sub (before +:+ sub +:+ after) = true.
Proof.
  induction before as [|a before IH].
  - rewrite sapp_nil. apply includes_prefix, prefix_app.
  - rewrite sapp_cons. cbn [Str.includes]. rewrite IH. apply orb_true_r.
Qed.

End StrProps.

(** ** The route generator on arbitrary routes *)

Module RouteGeneratorProps.
Import RouteGenerator StrProps SwaggerProps.

Lemma rev_not_empty (n : string) : n ≠ "" → String.rev n ≠ "".
Proof.
  intros Hn Hr. apply Hn. rewrite <- (rev_involutive n), Hr. reflexivity.
Qed.

Lemma close_name_ok (cur : string) :
  has_char "/" cur = false →
  ∀ n, n ∈ close_name (Some cur) → n ≠ "" ∧ has_char "/" n = false.
Proof.
  intros Hc n. unfold close_name.
  destruct (String.eqb_spec cur "") as [->|Hne]; [by intros ?%elem_of_nil |].
  intros ->%list_elem_of_singleton. split.
  - by apply rev_not_empty.
  - by rewrite has_char_rev.
Qed.

Lemma scan_params_names (s : string) : ∀ cur,
  (∀ c, cur = Some c → has_char "/" c = false) →
  ∀ n, n ∈ scan_params s cur → n ≠ "" ∧ has_char "/" n = false.
Proof.
  induction s as [|a s IH]; intros cur Hcur n.
  - cbn. destruct cur as [c|]; [| by intros ?%elem_of_nil].
    apply close_name_ok. by apply Hcur.
  - cbn [scan_params]. destruct cur as [c|].
    + destruct (Ascii.eqb a "/") eqn:Ea.
      * intros [H|H]%elem_of_app.
        -- eapply close_name_ok; [| exact H]. by apply Hcur.
        -- eapply IH; [| exact H]. intros c' [=].
      * apply IH. intros c' [= <-]. cbn. rewrite Ea. cbn. by apply Hcur.
    + destruct (Ascii.eqb a ":"); apply IH; intros c' [=]; subst; reflexivity.
Qed.

(** X1: the path parameters the generator documents are required path
    parameters whose names are never empty and never hold a slash, whatever
    the route path. *)
Theorem extracted_parameters (routePath : string) (p : Json) :
  p ∈ extractPathParams routePath →
  ∃ n, jget "name" p = Some (JStr n)
       ∧ n ≠ "" ∧ has_char "/" n = false
       ∧ jget "in" p = Some (JStr "path")
       ∧ jget "required" p = Some (JBool true).
Proof.
  unfold extractPathParams. intros (n & -> & Hn)%list_elem_of_fmap.
  exists n. split; [reflexivity |].
  assert (n ≠ "" ∧ has_char "/" n = false) as [H1 H2].
  { eapply scan_params_names; [| exact Hn]. intros c [=]. }
  repeat split; done.
Qed.

Lemma extracted_parameters_witness :
  JObj [("name", JStr "userId"); ("in", JStr "path"); ("required", JBool true);
        ("schema", JObj [type_of "string"])]
    ∈ extractPathParams "/get/userorders/:userId"
  ∧ ∃ n, n ≠ "" ∧ has_char "/" n = false.
Proof.
  assert (JObj [("name", JStr "userId"); ("in", JStr "path"); ("required", JBool true);
                ("schema", JObj [type_of "string"])]
            ∈ extractPathParams "/get/userorders/:userId") as H
    by (vm_compute; left).
  split; [exact H |].
  destruct (extracted_parameters _ _ H) as (n & _ & H1 & H2 & _).
  exists n. split; [exact H1 | exact H2].
Defined.

Lemma scan_literal (text rest : string) :
  has_char ":" text = false →
  scan_params (text +:+ rest) None = scan_params rest None.
Proof.
  induction text as [|a text IH]; intros H; [done |].
  cbn in H. apply orb_false_elim in H as [Ha Ht].
  rewrite sapp_cons. cbn [scan_params]. rewrite Ha. by apply IH.
Qed.

Lemma scan_name (name rest cur : string) :
  has_char "/" name = false →
  scan_params (name +:+ rest) (Some cur)
  = scan_params rest (Some (String.rev_app name cur)).
Proof.
  revert cur. induction name as [|a name IH]; intros cur H; [done |].
  cbn in H. apply orb_false_elim in H as [Ha Hn].
  rewrite sapp_cons. cbn [scan_params String.rev_app]. rewrite Ha. by apply IH.
Qed.

Lemma scan_close (segs : list segment) (cur : string) :
  scan_params (render_path segs) (Some cur)
  = close_name (Some cur) ++ scan_params (render_path segs) None.
Proof.
  destruct segs as [|seg rest]; cbn [render_path].
  - cbn [scan_params]. by rewrite app_nil_r.
  - destruct seg; cbn [render_segment]; rewrite !sapp_cons; reflexivity.
Qed.

(** X2: round trip: on a path written as literal segments and [:name]
    parameters, the generator extracts the parameter names, in order. *)
Theorem extract_rendered_parameters (segs : list segment) :
  Forall segment_ok segs →
  scan_params (render_path segs) None = parameter_names segs
  ∧ jget "name" <$> extractPathParams (render_path segs)
    = (λ n, Some (JStr n)) <$> parameter_names segs.
Proof.
  intros Hok.
  assert (scan_params (render_path segs) None = parameter_names segs) as E.
  { induction Hok as [|seg rest Hseg _ IH]; [done |].
    cbn [render_path parameter_names omap list_omap].
    destruct seg as [text|name]; cbn [render_segment]; destruct Hseg as [H1 H2].
    - rewrite sapp_assoc, sapp_cons, sapp_nil. cbn [scan_params].
      change (Ascii.eqb "/" ":") with false. cbn iota.
      rewrite scan_literal by done. exact IH.
    - rewrite sapp_assoc, !sapp_cons, sapp_nil. cbn [scan_params].
      change (Ascii.eqb "/" ":") with false. change (Ascii.eqb ":" ":") with true.
      cbn iota. rewrite scan_name by done. rewrite scan_close.
      fold (parameter_names rest). rewrite IH.
      change (String.rev_app name "") with (String.rev name).
      unfold close_name.
      destruct (String.eqb_spec (String.rev name) "") as [E|_].
      + by apply rev_not_empty in E.
      + by rewrite rev_involutive. }
  split; [exact E |].
  unfold extractPathParams. rewrite E. rewrite <- !list_fmap_compose.
  reflexivity.
Qed.

Lemma extract_rendered_parameters_witness :
  Forall segment_ok [Lit "get"; Lit "status"; Par "status"]
  ∧ scan_params "/get/status/:status" None = ["status"].
Proof.
  assert (Forall segment_ok [Lit "get"; Lit "status"; Par "status"]) as H.
  { repeat constructor; discriminate. }
  split; [exact H |].
  exact (proj1 (extract_rendered_parameters _ H)).
Defined.

(** A request body is documented for every method except get and delete. *)
Lemma request_body_absent (routePath method tag : string) :
  determineRequestBody routePath method tag = None
  ↔ method = "get" ∨ method = "delete".
Proof.
  unfold determineRequestBody.
  destruct (String.eqb_spec method "get") as [->|Hg]; [cbn; tauto |].
  destruct (String.eqb_spec method "delete") as [->|Hd]; [cbn; tauto |].
  cbn. split; [| tauto].
  repeat match goal with |- context [if ?b then _ else _] => destruct b end;
    discriminate.
Qed.

(** X3: the operation the generator writes for a route asks for the bearer
    token exactly when the method is post, put or delete, and carries a
    request body exactly when the method is neither get nor delete. *)
Theorem operation_security_and_body (tag routePath : string) (route : Route) :
  (is_Some (jget "security" (path_object tag routePath route))
   ↔ Str.toLowerCase (r_method route) ∈ ["post"; "put"; "delete"])
  ∧ (is_Some (jget "requestBody" (path_object tag routePath route))
     ↔ ¬ (Str.toLowerCase (r_method route) = "get"
          ∨ Str.toLowerCase (r_method route) = "delete")).
Proof.
  unfold path_object, securedPaths.
  pose proof (request_body_absent (r_path route) (Str.toLowerCase (r_method route)) tag)
    as Hbody.
  destruct (determineRequestBody _ _ _) as [b|];
    case_bool_decide as Hsec; cbn; split; split; intros H;
    try done; try (by eexists); try (by destruct H as [? [=]]).
  - intros Hm. apply Hbody in Hm. discriminate.
  - intros Hm. apply Hbody in Hm. discriminate.
  - exfalso. apply H. by apply Hbody.
  - exfalso. apply H. by apply Hbody.
Qed.

(** *** Every route of every router file is documented *)








(** X5: a file of the routers directory that is not a router file adds nothing
    to the generated paths. *)
Theorem other_files_ignored (before after : list (string * list Route))
    (file : string) (stack : list Route) :
  is_router_file file = false →
  generateSwaggerPaths (before ++ (file, stack) :: after)
  = generateSwaggerPaths (before ++ after).
Proof.
  intros H. unfold generateSwaggerPaths.
  rewrite !filter_app, filter_cons_False; [done |]. cbn. by rewrite H.
Qed.

Lemma other_files_ignored_witness :
  is_router_file ".DS_Store" = false
  ∧ generateSwaggerPaths (routers_dir ++ [(".DS_Store", [mkRoute "get" "/"])])
    = generateSwaggerPaths (routers_dir ++ []).
Proof.
  split; [reflexivity |].
  apply (other_files_ignored routers_dir [] ".DS_Store" [mkRoute "get" "/"]).
  reflexivity.
Defined.

(** *** Operation identifiers *)

Lemma rev_app_map (f : ascii → ascii) (s t : string) :
  String.rev_app (Str.map_chars f s) (Str.map_chars f t)
  = Str.map_chars f (String.rev_app s t).
Proof.
  revert t. induction s as [|a s IH]; intros t; [done |]. cbn.
  apply (IH (String a t)).
Qed.

Lemma rev_map (f : ascii → ascii) (s : string) :
  String.rev (Str.map_chars f s) = Str.map_chars f (String.rev s).
Proof. apply (rev_app_map f s ""). Qed.

Lemma drop_last_map (f : ascii → ascii) (s : string) :
  Str.drop_last (Str.map_chars f s) = Str.map_chars f (Str.drop_last s).
Proof.
  unfold Str.drop_last. rewrite rev_map.
  destruct (String.rev s) as [|a r]; cbn; [done | apply rev_map].
Qed.

Lemma prefix_empty (s : string) : String.prefix "" s = true.
Proof. by destruct s. Qed.

Lemma endsWith_slash (s : string) :
  Str.endsWith "/" s
  = match String.rev s with
    | String c _ => Ascii.eqb c "/"
    | EmptyString => false
    end.
Proof.
  unfold Str.endsWith. change (String.rev "/") with "/".
  destruct (String.rev s) as [|c r]; [done |].
  change (String.prefix "/" (String c r))
    with (if Ascii.ascii_dec "/" c then String.prefix "" r else false).
  destruct (Ascii.ascii_dec "/" c) as [<-|Hne].
  - by rewrite prefix_empty.
  - symmetry. apply Ascii.eqb_neq. congruence.
Qed.

Lemma map_map_chars (f g : ascii → ascii) (s : string) :
  Str.map_chars g (Str.map_chars f s) = Str.map_chars (λ c, g (f c)) s.
Proof. induction s as [|a s IH]; cbn; [done | by rewrite IH]. Qed.

Lemma map_chars_ext (f g : ascii → ascii) (s : string) :
  (∀ c, f c = g c) → Str.map_chars f s = Str.map_chars g s.
Proof. intros H. induction s as [|a s IH]; cbn; [done | by rewrite H, IH]. Qed.

(** The character map of [.replace(/-/g, '_')]. *)
Lemma dash_is_not (c d : ascii) :
  d ≠ "-"%char → d ≠ "_"%char →
  Ascii.eqb (if Ascii.eqb c "-" then "_"%char else c) d = Ascii.eqb c d.
Proof.
  intros H1 H2. destruct (Ascii.eqb_spec c "-") as [->|Hc]; [| done].
  transitivity false; [| symmetry]; apply Ascii.eqb_neq; congruence.
Qed.

Lemma strip_leading_dash (s : string) :
  strip_leading_slash (replace_char "-" "_" s)
  = replace_char "-" "_" (strip_leading_slash s).
Proof.
  destruct s as [|a s]; [done |]. unfold replace_char. cbn.
  rewrite dash_is_not by discriminate. by destruct (Ascii.eqb a "/").
Qed.

Lemma strip_trailing_dash (s : string) :
  strip_trailing_slash (replace_char "-" "_" s)
  = replace_char "-" "_" (strip_trailing_slash s).
Proof.
  unfold strip_trailing_slash, replace_char.
  rewrite !endsWith_slash, rev_map.
  destruct (String.rev s) as [|c r]; cbn; [done |].
  rewrite dash_is_not by discriminate.
  destruct (Ascii.eqb c "/"); [apply drop_last_map | done].
Qed.

Lemma remove_colon_dash (s : string) :
  remove_char ":" (replace_char "-" "_" s)
  = replace_char "-" "_" (remove_char ":" s).
Proof.
  unfold replace_char. induction s as [|a s IH]; cbn; [done |].
  rewrite dash_is_not by discriminate.
  destruct (Ascii.eqb a ":"); cbn; by rewrite IH.
Qed.

Lemma slash_dash (s : string) :
  replace_char "/" "_" (replace_char "-" "_" s)
  = replace_char "-" "_" (replace_char "/" "_" s).
Proof.
  unfold replace_char. rewrite !map_map_chars. apply map_chars_ext. intros c.
  destruct (Ascii.eqb_spec c "-") as [->|H1]; [done |].
  destruct (Ascii.eqb_spec c "/") as [->|H2]; [done |].
  by rewrite (proj2 (Ascii.eqb_neq c "-")).
Qed.

Lemma dash_dash (s : string) :
  replace_char "-" "_" (replace_char "-" "_" s) = replace_char "-" "_" s.
Proof.
  unfold replace_char. rewrite map_map_chars. apply map_chars_ext. intros c.
  destruct (Ascii.eqb c "-") eqn:E; [done | by rewrite E].
Qed.

(** X6: the operation identifier does not tell a dash from an underscore: the
    routes [/gallery-images/:id] and [/gallery_images/:id] would get the same
    identifier. *)
Theorem operation_id_dash (routePath method : string) :
  generateOperationId (replace_char "-" "_" routePath) method
  = generateOperationId routePath method.
Proof.
  unfold generateOperationId.
  by rewrite strip_leading_dash, strip_trailing_dash, slash_dash,
    remove_colon_dash, dash_dash.
Qed.

(** Every operation identifier begins with the method in lower case. *)
Lemma operation_id_prefix (routePath method : string) :
  String.prefix (Str.toLowerCase method) (generateOperationId routePath method)
  = true.
Proof.
  unfold generateOperationId.
  repeat match goal with |- context [if ?b then _ else _] => destruct b end;
    apply prefix_app.
Qed.

End RouteGeneratorProps.

(** ** The schema generator on arbitrary models *)

Module SchemaGeneratorProps.
Import RouteGenerator SchemaGenerator SwaggerDoc SwaggerProps.

Lemma not_inherited (name : string) :
  bool_decide (name ∈ Object_prototype) = false → name ∉ Object_prototype.
Proof. intros H. by apply bool_decide_eq_false in H. Qed.

(** X7: every schema type whose instance is not the name of a property
    that object literals inherit is documented with one of five OpenAPI
    types: an Array as "array", an instance the type map does not know as
    "string".  For an instance that is such a name (constructor, toString,
    __proto__, ...) the lookup in the type map finds the inherited value,
    and what is returned has no type. *)
Theorem documented_type (st : SchemaType) :
  (instance st ∉ Object_prototype →
   ∃ t, jget "type" (convert st) = Some (JStr t)
        ∧ t ∈ ["string"; "number"; "boolean"; "object"; "array"]
        ∧ (instance st = "Array" → t = "array")
        ∧ (assoc (instance st) typeMap = None → instance st ≠ "Array" →
           t = "string"))
  ∧ (instance st ∈ Object_prototype →
     convert st = JNative (instance st) ∧ jget "type" (convert st) = None).
Proof.
  destruct st as [inst vs re ref caster sub]. cbn [convert instance].
  destruct (String.eqb_spec inst "Array") as [->|Hne].
  - split.
    + intros _. exists "array".
      destruct sub; cbn; repeat split; try done; set_solver.
    + intros H. exfalso. revert H. by apply not_inherited.
  - unfold literal_get, typeMap. cbn [assoc].
    repeat match goal with
           | |- context [String.eqb inst ?s] =>
               destruct (String.eqb_spec inst s) as [->|?]
           end;
      try (split;
           [intros _; cbn; eexists; (split; [reflexivity |]);
            (split; [set_solver |]); split; intros; congruence
           | intros H; exfalso; revert H; by apply not_inherited]).
    case_bool_decide as Hin; cbn; split; try done.
    intros _. exists "string". repeat split; set_solver.
Qed.

Lemma add_path_internal (k : string) (paths : list (string * SchemaType)) :
  ∀ init, internal_path k → assoc k (fold_left add_path paths init) = assoc k init.
Proof.
  induction paths as [|[f t] rest IH]; intros init Hk; [done |].
  cbn [fold_left]. rewrite IH by done. unfold add_path. cbn [fst snd].
  destruct (String.eqb_spec f "__v") as [->|N1]; [done |].
  destruct (String.eqb_spec f "_id") as [->|N2]; [done |].
  cbn. apply assoc_jset_ne. destruct Hk; congruence.
Qed.

Lemma add_path_keeps (k : string) (paths : list (string * SchemaType)) :
  ∀ init, is_Some (assoc k init) → is_Some (assoc k (fold_left add_path paths init)).
Proof.
  induction paths as [|[f t] rest IH]; intros init Hk; [done |].
  cbn [fold_left]. apply IH. unfold add_path. cbn [fst snd].
  destruct (String.eqb f "__v" || String.eqb f "_id"); [done |].
  destruct (decide (k = f)) as [->|Hne].
  - rewrite assoc_jset_eq. by eexists.
  - by rewrite assoc_jset_ne.
Qed.

Lemma add_path_keys (k : string) (paths : list (string * SchemaType)) :
  ∀ init, is_Some (assoc k (fold_left add_path paths init)) →
          is_Some (assoc k init) ∨ k ∈ paths.*1.
Proof.
  induction paths as [|[f t] rest IH]; intros init Hk; [by left |].
  cbn [fold_left] in Hk. apply IH in Hk as [Hk|Hk]; [| right; cbn; by right].
  unfold add_path in Hk. cbn [fst snd] in Hk.
  destruct (String.eqb f "__v" || String.eqb f "_id"); [by left |].
  destruct (decide (k = f)) as [->|Hne]; [right; cbn; left |].
  rewrite assoc_jset_ne in Hk by done. by left.
Qed.

(** X8: the properties of a model's schema: [_id] and [__v] are never among
    them, [id] always is, and every other property is a path of the
    model. *)
Theorem model_property_keys (paths : list (string * SchemaType)) (k : string) :
  assoc "_id" (model_properties paths) = None
  ∧ assoc "__v" (model_properties paths) = None
  ∧ is_Some (assoc "id" (model_properties paths))
  ∧ (is_Some (assoc k (model_properties paths)) → k = "id" ∨ k ∈ paths.*1).
Proof.
  unfold model_properties. repeat split.
  - rewrite add_path_internal by (by right). reflexivity.
  - rewrite add_path_internal by (by left). reflexivity.
  - apply add_path_keeps. by eexists.
  - intros H. apply add_path_keys in H as [H|H]; [left | by right].
    cbn in H. destruct (String.eqb_spec k "id"); [done | by destruct H].
Qed.

(** X9: the schemas of the document: the six names the literal lists are
    always there; Error is always the fixed error schema, whatever the
    models are; and a listed model that was not extracted gets its
    fallback. *)
Theorem component_schema_names (modelSchemas : list (string * Json)) :
  assoc "Error" (component_schemas modelSchemas) = Some Error_schema
  ∧ (∀ name, name ∈ ["Product"; "Category"; "User"; "Order"; "OrderItem"] →
       is_Some (assoc name (component_schemas modelSchemas)))
  ∧ (assoc "User" modelSchemas = None →
     assoc "User" (component_schemas modelSchemas) = Some fallback_User)
  ∧ (assoc "Product" modelSchemas = None →
     assoc "Product" (component_schemas modelSchemas) = Some fallback_Product).
Proof.
  unfold component_schemas. split; [apply assoc_jset_eq |]. split; [| split].
  - intros name Hin.
    repeat (apply elem_of_cons in Hin as [->|Hin]);
      [.. | by apply elem_of_nil in Hin];
      repeat first [ rewrite assoc_jset_eq; by eexists
                   | rewrite assoc_jset_ne by discriminate ].
  - intros H. rewrite !(assoc_jset_ne "User") by discriminate.
    rewrite assoc_jset_eq. unfold or_fallback. by rewrite H.
  - intros H. rewrite !(assoc_jset_ne "Product") by discriminate.
    rewrite assoc_jset_eq. unfold or_fallback. by rewrite H.
Qed.

End SchemaGeneratorProps.

(** ** The allow-list and the middleware stack *)

Module StackProps.
Import Jwt App Table StrProps.
Local Open Scope Z_scope.

(** The layers of app.js, one after the other, decide a request as the
    table does. *)
Lemma handle_table (api : string) (files : list string) (req : request) :
  handle api files req = decide_request api files req.
Proof.
  unfold handle, app, decide_request, routed, routed_by, static_hit, docs_path.
  cbn [dispatch].
  destruct (String.eqb (method req) "OPTIONS"); [done |].
  match goal with |- context [if ?b then ServedFile else _] => destruct b end;
    [done |].
  repeat match goal with
         | |- context [strip_mount ?m ?p] =>
             destruct (strip_mount m p) eqn:?; cbn [mbind option_bind]
         | |- context [find ?f ?l] => destruct (find f l) eqn:?
         end; try done;
    destruct (authJwt api req); try done;
    repeat case_bool_decide; try done.
Qed.


(** Routing takes HEAD to the handler of GET and disregards the letter case
    of the path; such requests, too, reach their handlers with the token
    check not run. *)
Example head_reaches_get_handler :
  handle "/api/v1" [] (mk_request "HEAD" "/api/v1/orders/get/count" None)
  = Handler "orders" (mkRoute "get" "/get/count") NotRun.
Proof. vm_compute. reflexivity. Qed.

Example upper_case_path_reaches_handler :
  handle "/api/v1" []
    (mk_request "DELETE" "/API/V1/PRODUCTS/507f1f77bcf86cd799439011" None)
  = Handler "products" (mkRoute "delete" "/:id") NotRun.
Proof. vm_compute. reflexivity. Qed.

Lemma authJwt_verifies (api : string) (req : request) (t : token) :
  authJwt api req = Verified t →
  allow_listed api req = false ∧ bearer req = Some t ∧ acceptable t = true.
Proof.
  unfold authJwt, isRevoked, acceptable.
  destruct (allow_listed api req); [done |].
  destruct (bearer req) as [[sv ex ad] |]; [| done].
  destruct sv, ex, ad; cbn; try done. by intros [= <-].
Qed.

(** X10: a request that reaches a route handler reaches it with the token
    check not run, and reaches the same handler whatever bearer token it
    carries or lacks. *)
Theorem handler_reached_unguarded api files req name r g :
  handle api files req = Handler name r g →
  g = NotRun
  ∧ ∀ b, handle api files (mk_request (method req) (path req) b)
         = Handler name r NotRun.
Proof.
  rewrite handle_table. intros H.
  assert (g = NotRun ∧ String.eqb (method req) "OPTIONS" = false
          ∧ static_hit files req = false
          ∧ routed api req = Some (name, r)) as (-> & Ho & Hs & Hr).
  { unfold decide_request in H.
    destruct (String.eqb (method req) "OPTIONS"); [done |].
    destruct (static_hit files req); [done |].
    destruct (routed api req) as [[n' r'] |].
    - by injection H as -> -> <-.
    - destruct (authJwt api req); [destruct (docs_path req) ..|]; done. }
  split; [done |]. intros b. rewrite handle_table.
  unfold decide_request.
  change (method (mk_request (method req) (path req) b)) with (method req).
  change (static_hit files (mk_request (method req) (path req) b))
    with (static_hit files req).
  change (routed api (mk_request (method req) (path req) b))
    with (routed api req).
  by rewrite Ho, Hs, Hr.
Qed.

Lemma handler_reached_unguarded_witness :
  handle "/api/v1" []
    (mk_request "PUT" "/api/v1/orders/5" (Some (mk_token false true false)))
  = Handler "orders" (mkRoute "put" "/:id") NotRun.
Proof.
  exact (proj2 (handler_reached_unguarded "/api/v1" []
                  (mk_request "PUT" "/api/v1/orders/5" None)
                  "orders" (mkRoute "put" "/:id") NotRun eq_refl)
               (Some (mk_token false true false))).
Defined.

(** X11: the documentation pages are the one thing the token check guards.
    They are served either to an allow-listed request, unchecked, or to a
    request off the allow-list that carries an acceptable token. *)
Theorem docs_behind_gate api files req g :
  handle api files req = ServedDocs g →
  (g = Bypassed ∧ allow_listed api req = true)
  ∨ (g = Passed ∧ allow_listed api req = false
     ∧ ∃ t, bearer req = Some t ∧ acceptable t = true).
Proof.
  rewrite handle_table. unfold decide_request.
  destruct (String.eqb (method req) "OPTIONS"); [done |].
  destruct (static_hit files req); [done |].
  destruct (routed api req) as [[n' r'] |]; [done |].
  destruct (authJwt api req) as [| t | e] eqn:Ha; [| | done].
  - destruct (docs_path req); [| done]. intros [= <-]. left. split; [done |].
    unfold authJwt in Ha. destruct (allow_listed api req); [done |].
    destruct (bearer req) as [[sv ex ad] |]; [| done].
    unfold isRevoked in Ha. destruct sv, ex, ad; done.
  - destruct (docs_path req); [| done]. intros [= <-]. right.
    apply authJwt_verifies in Ha as (? & ? & ?). eauto.
Qed.

Lemma docs_behind_gate_witness :
  allow_listed "/api/v1" (mk_request "POST" "/api-docs" (Some (mk_token true false true))) = false
  ∧ ∃ t, Some (mk_token true false true) = Some t ∧ acceptable t = true.
Proof.
  destruct (docs_behind_gate "/api/v1" []
              (mk_request "POST" "/api-docs" (Some (mk_token true false true)))
              Passed eq_refl) as [[H _] | (_ & H & Ht)]; [discriminate H |].
  exact (conj H Ht).
Defined.

Lemma allow_listed_eq (api : string) (req : request) :
  allow_listed api req
  = (String.eqb (method req) "GET" || String.eqb (method req) "OPTIONS")
    && (Str.includes "/api-docs" (path req)
        || Str.includes "/public/uploads" (path req)
        || Str.includes "/api/v1/products" (path req)
        || Str.includes "/api/v1/categories" (path req))
    || String.eqb (api +:+ "/users/login") (path req)
    || String.eqb (api +:+ "/users/regiseter") (path req).
Proof.
  unfold allow_listed, allow_list, method_match, url_match.
  cbn [existsb url methods].
  repeat match goal with
         | |- context [String.eqb ?a ?b] => destruct (String.eqb a b)
         | |- context [Str.includes ?a ?b] => destruct (Str.includes a b)
         end; reflexivity.
Qed.

Lemma not_get_options (m : string) :
  m ∉ ["GET"; "OPTIONS"] →
  String.eqb m "GET" || String.eqb m "OPTIONS" = false.
Proof.
  intros H.
  destruct (String.eqb_spec m "GET") as [-> |]; [exfalso; apply H; left |].
  destruct (String.eqb_spec m "OPTIONS") as [-> |]; [| done].
  exfalso. apply H. right. left.
Qed.

(** X13: for a method other than GET and OPTIONS the allow-list holds two
    paths only, compared as whole paths: the login path and the path
    written [/users/regiseter]. *)
Theorem allow_list_other_methods api req :
  method req ∉ ["GET"; "OPTIONS"] →
  allow_listed api req = true
  ↔ path req = api +:+ "/users/login" ∨ path req = api +:+ "/users/regiseter".
Proof.
  intros Hm. rewrite allow_listed_eq, (not_get_options _ Hm). cbn [andb orb].
  destruct (String.eqb_spec (api +:+ "/users/login") (path req)) as [E1 | N1];
    [cbn; split; [by left | done] |].
  destruct (String.eqb_spec (api +:+ "/users/regiseter") (path req)) as [E2 | N2];
    [cbn; split; [by right | done] |].
  cbn. split; [done | by intros [? | ?]].
Qed.

Lemma allow_list_other_methods_witness :
  allow_listed "/api/v1" (mk_request "POST" "/api/v1/users/register" None) = true
  ↔ "/api/v1/users/register" = "/api/v1" +:+ "/users/login"
    ∨ "/api/v1/users/register" = "/api/v1" +:+ "/users/regiseter".
Proof.
  apply (allow_list_other_methods "/api/v1"
           (mk_request "POST" "/api/v1/users/register" None)).
  cbn. intros H. repeat (apply elem_of_cons in H as [H | H]; [discriminate H |]).
  by apply elem_of_nil in H.
Defined.

(** X14: the four patterns of the allow-list are not anchored: a GET or
    OPTIONS request is let through unchecked as soon as its path contains
    one of the four texts anywhere. *)
Theorem allow_list_unanchored api m before text after b :
  m ∈ ["GET"; "OPTIONS"] →
  text ∈ ["/api-docs"; "/public/uploads"; "/api/v1/products"; "/api/v1/categories"] →
  allow_listed api (mk_request m (before +:+ text +:+ after) b) = true.
Proof.
  intros Hm Ht. rewrite allow_listed_eq. cbn [method path].
  assert (String.eqb m "GET" || String.eqb m "OPTIONS" = true) as ->.
  { repeat (apply elem_of_cons in Hm as [-> | Hm]; [reflexivity |]).
    by apply elem_of_nil in Hm. }
  repeat (apply elem_of_cons in Ht as [-> | Ht];
          [rewrite includes_app; cbn [andb orb]; by rewrite ?orb_true_r |]).
  by apply elem_of_nil in Ht.
Qed.

Lemma allow_list_unanchored_witness :
  allow_listed "/api/v1"
    (mk_request "GET" ("/api/v1/orders/get/userorders" +:+ "/api-docs" +:+ "") None)
  = true.
Proof.
  apply allow_list_unanchored; [left | left].
Defined.

End StackProps.

(** ** Categories and products: creation and deletion *)

Module CatalogProps.
Import MonadTactics.
Local Open Scope Z_scope.

Lemma required_string_some (o : option string) (n : string) :
  o = Some n → n ≠ "" → required_string o = Some n.
Proof.
  intros -> Hn. cbn. by destruct (String.eqb_spec n "").
Qed.

(** X15: POST /categories with a name stores the category under an unused
    identifier with the four fields as they were sent, answers 200 with
    the document, and a GET of that identifier then returns the same
    document. *)
Theorem category_round_trip (d : Store) (body : Category.input) (n : string) :
  Category.i_name body = Some n → n ≠ "" →
  let r := run (Categories.post body) d in
  let c := Category.mk n (Category.i_icon body) (Category.i_color body)
             (Category.i_image body) in
  ∃ id,
    categories d !! id = None
    ∧ categories (db r.2) = <[id := c]> (categories d)
    ∧ wire r = Some (mkResponse 200 (inl (Category.toJSON id c)))
    ∧ wire (run (Categories.get_by_id id) (db r.2))
      = Some (mkResponse 200 (inl (JObj [("category", Category.toJSON id c)]))).
Proof.
  intros Hname Hn. exists (fresh (dom (categories d))).
  split; [apply not_elem_of_dom, is_fresh |].
  unfold run, Categories.post, Categories.save_category, Category.validate, wire.
  msimpl. cbn. rewrite (required_string_some _ _ Hname Hn). cbn.
  split; [done |]. split; [done |].
  unfold Categories.get_by_id. msimpl. cbn [categories Categories.set_categories].
  by rewrite lookup_insert_eq.
Qed.

Lemma category_round_trip_witness :
  ∃ id : ObjectId,
    wire (run (Categories.get_by_id id)
            (db (run (Categories.post
                        (Category.mk_input (Some "Garden") None (Some "#0a0") None))
                     (mkStore ∅ ∅ ∅ ∅ ∅)).2))
    = Some (mkResponse 200
              (inl (JObj [("category",
                           Category.toJSON id
                             (Category.mk "Garden" None (Some "#0a0") None))]))).
Proof.
  destruct (category_round_trip (mkStore ∅ ∅ ∅ ∅ ∅)
              (Category.mk_input (Some "Garden") None (Some "#0a0") None)
              "Garden" eq_refl ltac:(discriminate)) as (id & _ & _ & _ & H).
  exists id. exact H.
Defined.

(** X16: POST /categories without a name, or with an empty one: the save
    is rejected with a ValidationError that leaves the handler; nothing
    is stored, no write is issued and the handler sends no response. *)
Theorem category_without_name (d : Store) (body : Category.input) :
  required_string (Category.i_name body) = None →
  ∃ e, run (Categories.post body) d = (Thrown e, mkH d fresh_res [])
       ∧ JsError.name e = "ValidationError".
Proof.
  intros H. eexists.
  unfold run, Categories.post, Categories.save_category, Category.validate.
  msimpl. cbn. rewrite H. cbn. split; reflexivity.
Qed.

Lemma category_without_name_witness :
  ∃ e, run (Categories.post (Category.mk_input (Some "") (Some "leaf") None None))
           (mkStore ∅ ∅ ∅ ∅ ∅)
       = (Thrown e, mkH (mkStore ∅ ∅ ∅ ∅ ∅) fresh_res [])
       ∧ JsError.name e = "ValidationError".
Proof. apply category_without_name. reflexivity. Defined.

(** X17: DELETE of a stored category answers 200, removes that category
    and nothing else, and does not touch the products: a product of the
    deleted category is still served by GET /products/:id, its category
    now null. *)
Theorem category_delete_no_cascade (d : Store) (id : ObjectId) (c : Category.t) :
  categories d !! id = Some c →
  let r := run (Categories.delete id) d in
  wire r = Some (mkResponse 200
                   (inl (JObj [("success", JBool true);
                               ("message", JStr "Category deleted successfully")])))
  ∧ categories (db r.2) = delete id (categories d)
  ∧ products (db r.2) = products d
  ∧ ∀ (pid : ObjectId) p, products d !! pid = Some p → Product.category p = id →
      wire (run (Products.get_by_id pid) (db r.2))
      = Some (mkResponse 200 (inl (Product.toJSON pid JNull p))).
Proof.
  intros H. unfold run, Categories.delete, Categories.findByIdAndDelete, wire.
  msimpl. cbn. rewrite H. cbn.
  split; [done |]. split; [done |]. split; [done |].
  intros pid p Hp Hc. unfold Products.get_by_id, Products.populated.
  msimpl. cbn. rewrite Hp. cbn. rewrite Hc, lookup_delete_eq. reflexivity.
Qed.

Lemma category_delete_no_cascade_witness :
  wire (run (Products.get_by_id 2%N)
          (db (run (Categories.delete 1%N) sample_catalog).2))
  = Some (mkResponse 200
            (inl (Product.toJSON 2%N JNull
                    (Product.mk "Teapot" "Cast iron" "" "" [] "" 7%float 1%N 10 0
                       false 0)))).
Proof.
  destruct (category_delete_no_cascade sample_catalog 1%N
              (Category.mk "Kitchen" None None None) eq_refl) as (_ & _ & _ & H).
  apply H; reflexivity.
Defined.

(** X18: a second DELETE of the same category or product is never answered
    200.  For an identifier that casts, the first DELETE leaves no document
    under it and the second is answered 404; for an identifier that does
    not cast, the first and the second DELETE are answered 500 and the
    database stays as it is. *)
Theorem delete_twice (d : Store) (raw : RawId) :
  let c1 := run (Categories.delete raw) d in
  let c2 := run (Categories.delete raw) (db c1.2) in
  let p1 := run (Products.delete raw) d in
  let p2 := run (Products.delete raw) (db p1.2) in
  match raw with
  | Casts _ =>
      wire c2 = Some (mkResponse 404
                        (inl (JObj [("success", JBool false);
                                    ("message", JStr "Category not found")])))
      ∧ wire p2 = Some (mkResponse 404
                          (inl (JObj [("success", JBool false);
                                      ("message", JStr "Product not found")])))
  | NoCast _ =>
      wire_status c1 = Some 500 ∧ wire_status c2 = Some 500
      ∧ wire_status p1 = Some 500 ∧ wire_status p2 = Some 500
      ∧ db c2.2 = d ∧ db p2.2 = d
  end.
Proof.
  destruct raw as [id | v]; [| repeat split; reflexivity].
  split.
  - unfold run, Categories.delete, Categories.findByIdAndDelete, wire.
    msimpl. cbn.
    destruct (categories d !! id); cbn; msimpl; cbn;
      by rewrite lookup_delete_eq.
  - unfold run, Products.delete, Products.findByIdAndDelete, wire.
    msimpl. cbn.
    destruct (products d !! id); cbn; msimpl; cbn;
      by rewrite lookup_delete_eq.
Qed.

(** X19: when POST /products answers 200, one product has been added under
    an unused identifier; its image is the upload address built from the
    request's protocol, host and the stored file's name, its stock lies
    between 0 and 255, its category is a stored category, and the body
    sent is that product with the category as an identifier. *)
Theorem product_post_stored (d : Store) (req : Products.post_req) (now : Z) :
  let r := run (Products.post req now) d in
  wire_status r = Some 200 →
  ∃ id p f,
    Products.r_file req = Some f
    ∧ products d !! id = None
    ∧ products (db r.2) = <[id := p]> (products d)
    ∧ Product.image p
      = (Products.r_protocol req +:+ "://" +:+ Products.r_host req
         +:+ "/public/uploads/") +:+ Products.filename f
    ∧ 0 ≤ Product.countInStock p ≤ 255
    ∧ is_Some (categories d !! Product.category p)
    ∧ Product.dateCreated p = now
    ∧ wire r = Some (mkResponse 200
                       (inl (Product.toJSON id (JOid (Product.category p)) p))).
Proof.
  unfold run, Products.post, Products.find_category, Products.save_product,
    wire_status, wire.
  destruct (Product.i_category (Products.r_body req)) as [[cid | v] |] eqn:Hc;
    msimpl; cbn; [| done | done].
  destruct (categories d !! cid) as [cat |] eqn:Hcat; cbn; [| done].
  destruct (Products.r_file req) as [f |]; cbn; [| done].
  msimpl. cbn. unfold Product.validate. cbn.
  destruct (required_string (Product.i_name (Products.r_body req))); [| done].
  destruct (required_string (Product.i_description (Products.r_body req)));
    [| done].
  destruct (Product.i_countInStock (Products.r_body req)) as [k |]; [| done].
  destruct (match Product.i_price (Products.r_body req) with
            | Some x => cast_number x
            | None => Some 0%float
            end) as [price |]; [| done].
  destruct ((0 <=? k) && (k <=? 255)) eqn:Hk; [| done].
  cbn. intros _.
  eexists (fresh (dom (products d))), _, f.
  split; [done |]. split; [apply not_elem_of_dom, is_fresh |].
  split; [reflexivity |]. cbn. split; [done |].
  apply andb_prop in Hk as [H0 H1]. split; [lia |]. split; [by rewrite Hcat |].
  done.
Qed.

Lemma product_post_stored_witness :
  ∃ id p,
    products (db (run (Products.post
                         (Products.mk_post_req
                            (Product.mk_input (Some "Kettle") (Some "1.7 l") None
                               (Some "ignored.png") [] None (Some 30%float)
                               (Some (Casts 1%N)) (Some 4) None None)
                            (Some (Products.mk_file "kettle-1.png")) "http"
                            "localhost:3000") 5)
                    (mkStore {[1%N := Category.mk "Kitchen" None None None]}
                       ∅ ∅ ∅ ∅)).2)
    = <[id := p]> ∅
    ∧ Product.image p = "http://localhost:3000/public/uploads/kettle-1.png".
Proof.
  destruct (product_post_stored
              (mkStore {[1%N := Category.mk "Kitchen" None None None]} ∅ ∅ ∅ ∅)
              (Products.mk_post_req
                 (Product.mk_input (Some "Kettle") (Some "1.7 l") None
                    (Some "ignored.png") [] None (Some 30%float)
                    (Some (Casts 1%N)) (Some 4) None None)
                 (Some (Products.mk_file "kettle-1.png")) "http"
                 "localhost:3000") 5)
    as (id & p & f & Hf & _ & Hs & Hi & _); [vm_compute; reflexivity |].
  exists id, p. split; [exact Hs |]. rewrite Hi.
  injection Hf as <-. reflexivity.
Defined.
End CatalogProps.

(** ** The names of uploaded files *)

Module StorageProps.
Import Storage StrProps.

Lemma rev_app_sapp (s t : string) :
  String.rev_app s t = String.rev_app s "" +:+ t.
Proof.
  revert t. induction s as [|a s IH]; intros t; [done |].
  cbn [String.rev_app]. rewrite (IH (String a t)), (IH (String a "")).
  by rewrite sapp_assoc.
Qed.

Lemma rev_cons (c : ascii) (s : string) :
  String.rev (String c s) = String.rev s +:+ String c "".
Proof. unfold String.rev. cbn [String.rev_app]. apply rev_app_sapp. Qed.

(** The first piece of a split is the text up to the first separator. *)
Lemma split_head (sep : ascii) (s cur : string) :
  ∃ stem,
    head (Str.split_aux sep s cur) = Some (String.rev cur +:+ stem)
    ∧ has_char sep stem = false
    ∧ (s = stem ∨ ∃ rest, s = stem +:+ String sep rest).
Proof.
  revert cur. induction s as [|c s IH]; intros cur.
  - exists "". cbn. rewrite sapp_empty_r. auto.
  - cbn [Str.split_aux]. destruct (Ascii.eqb c sep) eqn:E.
    + apply Ascii.eqb_eq in E as ->. exists "". cbn. rewrite sapp_empty_r.
      split; [done |]. split; [done |]. right. by exists s.
    + destruct (IH (String c cur)) as (stem & Hh & Hc & Hs).
      exists (String c stem). rewrite Hh, rev_cons, sapp_assoc.
      split; [done |]. split; [cbn; by rewrite E |].
      destruct Hs as [-> | [rest ->]]; [by left |]. right. by exists rest.
Qed.

Lemma pretty_N_char_digit (c : ascii) (x : N) :
  (nat_of_ascii c < 48 ∨ 57 < nat_of_ascii c)%nat →
  Ascii.eqb (pretty_N_char x) c = false.
Proof.
  intros H. apply Ascii.eqb_neq. intros <-.
  unfold pretty_N_char in H. repeat case_match; vm_compute in H; lia.
Qed.

Lemma pretty_N_go_has_char (c : ascii) (x : N) (s : string) :
  (nat_of_ascii c < 48 ∨ 57 < nat_of_ascii c)%nat →
  has_char c (pretty_N_go x s) = has_char c s.
Proof.
  intros H. revert s.
  induction (N.lt_wf_0 x) as [x _ IH]; intros s.
  destruct (decide (x = 0%N)) as [-> | Hx]; [by rewrite pretty_N_go_0 |].
  rewrite pretty_N_go_step by lia.
  rewrite IH by (apply N.div_lt; lia).
  cbn. by rewrite pretty_N_char_digit.
Qed.

Lemma pretty_N_has_char (c : ascii) (x : N) :
  (nat_of_ascii c < 48 ∨ 57 < nat_of_ascii c)%nat →
  has_char c (pretty x) = false.
Proof.
  intros H. unfold pretty, pretty_N.
  destruct (decide (x = 0%N)).
  - cbn. rewrite orb_false_r. exact (pretty_N_char_digit c 0 H).
  - by rewrite pretty_N_go_has_char.
Qed.


Lemma file_type_values (key ext : string) :
  file_type key = Some ext → ext ∈ ["png"; "jpg"; "gif"; "webp"; "svg"].
Proof.
  unfold file_type, FILE_TYPE_MAP. cbn [find fst].
  repeat case_match; cbn; intros [= <-]; set_solver.
Qed.

(** X21: a name the disk storage gives to an upload is the original name
    up to its first dot, a dash, the time in decimal digits, a dot and one
    of five extensions; so the name has one dot only, the one before the
    extension, whatever the original name was. *)
Theorem filename_shape (file : upload) (now : N) (name : string) :
  filename file now = inr name →
  ∃ stem ext,
    name = stem +:+ "-" +:+ pretty now +:+ "." +:+ ext
    ∧ (originalname file = stem
       ∨ ∃ rest, originalname file = stem +:+ String "." rest)
    ∧ has_char "." (stem +:+ "-" +:+ pretty now) = false
    ∧ ext ∈ ["png"; "jpg"; "gif"; "webp"; "svg"].
Proof.
  unfold filename, Str.split.
  destruct (split_head "." (originalname file) "") as (stem & -> & Hc & Hs).
  destruct (file_type (mimetype file)) as [ext |] eqn:He; [| done].
  intros [= <-]. exists stem, ext. cbn [default]. rewrite sapp_nil.
  split; [done |]. split; [done |]. split; [| by eapply file_type_values].
  rewrite !has_char_app, Hc, pretty_N_has_char
    by (left; apply Nat.ltb_lt; reflexivity).
  reflexivity.
Qed.

Lemma filename_shape_witness :
  ∃ stem ext,
    "tea-1700000000000.jpg" = stem +:+ "-" +:+ pretty 1700000000000%N +:+ "." +:+ ext
    ∧ ("tea.pot.JPG" = stem ∨ ∃ rest, "tea.pot.JPG" = stem +:+ String "." rest).
Proof.
  edestruct (filename_shape (mk_upload "tea.pot.JPG" "image" "jpeg")
               1700000000000 "tea-1700000000000.jpg")
    as (stem & ext & H1 & H2 & _); [vm_compute; reflexivity |].
  exists stem, ext. split; assumption.
Defined.

End StorageProps.
